(** * TapMeIn: the redirect resolution of a profile and the tap route

    A shallow embedding of [profileSchema.methods.getRedirectUrl] and its
    three selectors (models/Profile.js) and of the [GET /tap/:cardUID]
    handler (routes/tap.js), with the properties of the redirect
    resolution engine stated over them. *)

From Stdlib Require Import ZArith String Ascii List Bool Lia Sorted DecimalString
  Permutation.
From stdpp Require Import gmap strings list.

Local Open Scope string_scope.
Local Open Scope list_scope.
Local Open Scope Z_scope.

(** ** JavaScript values the code relies on *)

Module JS.

(** A completion of an evaluation: a normal value or a thrown exception. *)
Inductive completion (A : Type) : Type :=
| Normal (a : A)
| Throw (e : string).
Arguments Normal {A} a.
Arguments Throw {A} e.

Definition bind {A B} (c : completion A) (k : A → completion B) : completion B :=
  match c with
  | Normal a => k a
  | Throw e => Throw e
  end.

(** [try { c } catch (e) { h e }] *)
Definition try_catch {A} (c : completion A) (h : string → completion A) : completion A :=
  match c with
  | Normal a => Normal a
  | Throw e => h e
  end.

(** What a boolean completion tests to; only meaningful on [Normal]. *)
Definition value (c : completion bool) : bool :=
  match c with
  | Normal b => b
  | Throw _ => false
  end.

(** Truthiness of a possibly absent string: [undefined] and the empty string are falsy. *)
Definition truthy (o : option string) : bool :=
  match o with
  | Some s => negb (String.eqb s EmptyString)
  | None => false
  end.

(** [a !== b] on possibly absent strings. *)
Definition strict_ne (a b : option string) : bool :=
  match a, b with
  | Some x, Some y => negb (String.eqb x y)
  | None, None => false
  | _, _ => true
  end.

(** [o || e] with [e] the empty string *)
Definition or_empty (o : option string) : string :=
  if truthy o then default EmptyString o else EmptyString.

Definition lower_ascii (c : ascii) : ascii :=
  let n := N_of_ascii c in
  if ((65 <=? n) && (n <=? 90))%N then ascii_of_N (n + 32) else c.

Definition upper_ascii (c : ascii) : ascii :=
  let n := N_of_ascii c in
  if ((97 <=? n) && (n <=? 122))%N then ascii_of_N (n - 32) else c.

Fixpoint map_string (f : ascii → ascii) (s : string) : string :=
  match s with
  | EmptyString => EmptyString
  | String c s' => String (f c) (map_string f s')
  end.

(** [String.prototype.toLowerCase] and [toUpperCase]: the letters A to Z
    and a to z are folded and every other character is kept, which is what
    the host does on ASCII strings; on other strings the host also folds
    the letters of every other script. *)
Definition toLowerCase : string → string := map_string lower_ascii.
Definition toUpperCase : string → string := map_string upper_ascii.

(** [s.startsWith(t)] *)
Definition startsWith (s t : string) : bool := String.prefix t s.

(** [s.includes(t)] *)
Fixpoint includes (s t : string) : bool :=
  String.prefix t s ||
  match s with
  | EmptyString => false
  | String _ s' => includes s' t
  end.

(** [s.endsWith(t)] *)
Definition endsWith (s t : string) : bool :=
  let n := String.length s in
  let m := String.length t in
  (m <=? n)%nat && String.eqb (String.substring (n - m) m s) t.

(** [a <= b] on strings: code units compared from the left. *)
Definition str_le (a b : string) : bool := String.leb a b.

(** [n.toString().padStart(2, '0')] for a natural number [n]. *)
Definition toString (n : Z) : string :=
  NilZero.string_of_uint (N.to_uint (Z.to_N n)).

Definition padStart2 (s : string) : string :=
  match String.length s with
  | O => "00"
  | S O => String "0" s
  | _ => s
  end.

(** [Array.prototype.find] with a callback that may throw. *)
Fixpoint find {A} (f : A → completion bool) (l : list A) : completion (option A) :=
  match l with
  | [] => Normal None
  | x :: l' =>
      bind (f x) (λ b, if b then Normal (Some x) else find f l')
  end.

(** [Array.prototype.sort(cmp)]: the sort is stable (ECMAScript 2019, and
    the Node 18 runtime of the project); a stable sort's result is fixed by
    [cmp], here computed by insertion from the right. *)
Fixpoint sort_insert {A} (cmp : A → A → Z) (x : A) (l : list A) : list A :=
  match l with
  | [] => [x]
  | y :: l' => if cmp x y <=? 0 then x :: y :: l' else y :: sort_insert cmp x l'
  end.

Fixpoint sort {A} (cmp : A → A → Z) (l : list A) : list A :=
  match l with
  | [] => []
  | x :: l' => sort_insert cmp x (sort cmp l')
  end.

(** The regular expression engine of the host, as far as the code uses it:
    [new RegExp(pattern, flags)], which throws a SyntaxError on a malformed
    pattern, and [regex.test(s)]. *)
Class RegExpEngine := {
  RegExp : Type;
  RegExp_new : string → string → completion RegExp;
  RegExp_test : RegExp → string → bool
}.

End JS.

(** ** The [Date] of the host *)

Module Date.

(** The server: its local time zone as an offset from UTC in minutes (east
    positive), and its clock in milliseconds since the epoch. *)
Record Server := {
  tzOffsetMinutes : Z;
  clockMs : Z
}.

Definition localMs (srv : Server) (ms : Z) : Z := ms + tzOffsetMinutes srv * 60000.

(** [getDay()]: 0 is Sunday; 1 January 1970 was a Thursday. *)
Definition getDay (srv : Server) (ms : Z) : Z :=
  (localMs srv ms / 86400000 + 4) mod 7.

Definition getHours (srv : Server) (ms : Z) : Z :=
  (localMs srv ms mod 86400000) / 3600000.

Definition getMinutes (srv : Server) (ms : Z) : Z :=
  (localMs srv ms mod 3600000) / 60000.

End Date.

(** ** The profile model (models/Profile.js) *)

Module TimeRule.
Record t := {
  name : string;
  startTime : string;
  endTime : string;
  daysOfWeek : list Z;
  url : string;
  active : bool;
  timezone : string
}.
End TimeRule.

Module GeoRule.
Record t := {
  name : string;
  country : option string;
  region : option string;
  city : option string;
  url : string;
  active : bool;
  priority : Z
}.
End GeoRule.

Module ConditionalRule.
Record t := {
  name : string;
  condition : string;
  value : string;
  operator : string;
  url : string;
  active : bool;
  priority : Z
}.
End ConditionalRule.

Record Profile := {
  redirectUrl : option string;
  redirectType : string;
  timeBasedRedirects : list TimeRule.t;
  geoBasedRedirects : list GeoRule.t;
  conditionalRedirects : list ConditionalRule.t
}.

(** The visitor's location; a field the lookup did not fill is [undefined]. *)
Record Location := {
  country : option string;
  region : option string;
  city : option string
}.

(** The context object handed to [getRedirectUrl]: [timestamp] in
    milliseconds since the epoch, [location], and the client signals read by
    [context[rule.condition]] (device, browser, referrer, user-agent). *)
Record Context := {
  timestamp : option Z;
  location : option Location;
  signals : gmap string string
}.

Definition emptyLocation : Location :=
  {| country := None; region := None; city := None |}.

Section Resolver.

Context `{JS.RegExpEngine}.
Variable srv : Date.Server.

(** [`${hours padded}:${minutes padded}`] *)
Definition currentTimeOf (now : Z) : string :=
  JS.padStart2 (JS.toString (Date.getHours srv now)) +:+ ":" +:+
  JS.padStart2 (JS.toString (Date.getMinutes srv now)).

(** The callback of [find] in [getActiveTimeBasedRedirect]. *)
Definition timeRuleApplies (currentDay : Z) (currentTime : string)
    (rule : TimeRule.t) : bool :=
  if (0 <? Z.of_nat (length (TimeRule.daysOfWeek rule)))
     && negb (existsb (Z.eqb currentDay) (TimeRule.daysOfWeek rule))
  then false
  else JS.str_le (TimeRule.startTime rule) currentTime
       && JS.str_le currentTime (TimeRule.endTime rule).

(** [getActiveTimeBasedRedirect(timestamp = new Date())] *)
Definition getActiveTimeBasedRedirect (rules : list TimeRule.t)
    (timestamp : option Z) : option TimeRule.t :=
  let now := default (Date.clockMs srv) timestamp in
  let currentDay := Date.getDay srv now in
  let currentTime := currentTimeOf now in
  List.find (timeRuleApplies currentDay currentTime)
    (List.filter TimeRule.active rules).

(** The callback of [find] in [getActiveGeoBasedRedirect]. *)
Definition geoRuleApplies (location : Location) (rule : GeoRule.t) : bool :=
  if JS.truthy (GeoRule.country rule)
     && JS.strict_ne (country location) (GeoRule.country rule)
  then false
  else if JS.truthy (GeoRule.region rule)
          && JS.strict_ne (region location) (GeoRule.region rule)
  then false
  else if JS.truthy (GeoRule.city rule)
          && JS.strict_ne (city location) (GeoRule.city rule)
  then false
  else true.

(** [getActiveGeoBasedRedirect(location = {})] *)
Definition getActiveGeoBasedRedirect (rules : list GeoRule.t)
    (location : option Location) : option GeoRule.t :=
  let location := default emptyLocation location in
  List.find (geoRuleApplies location)
    (JS.sort (λ a b, GeoRule.priority b - GeoRule.priority a)
       (List.filter GeoRule.active rules)).

(** The callback of [find] in [getActiveConditionalRedirect]. *)
Definition conditionalRuleApplies (context : Context)
    (rule : ConditionalRule.t) : JS.completion bool :=
  let testValue := JS.or_empty (signals context !! ConditionalRule.condition rule) in
  let ruleValue := JS.toLowerCase (ConditionalRule.value rule) in
  let testValueLower := JS.toLowerCase testValue in
  let operator := ConditionalRule.operator rule in
  if String.eqb operator "equals" then
    JS.Normal (String.eqb testValueLower ruleValue)
  else if String.eqb operator "contains" then
    JS.Normal (JS.includes testValueLower ruleValue)
  else if String.eqb operator "starts-with" then
    JS.Normal (JS.startsWith testValueLower ruleValue)
  else if String.eqb operator "ends-with" then
    JS.Normal (JS.endsWith testValueLower ruleValue)
  else if String.eqb operator "regex" then
    JS.try_catch
      (JS.bind (JS.RegExp_new (ConditionalRule.value rule) "i")
         (λ regex, JS.Normal (JS.RegExp_test regex testValue)))
      (λ _, JS.Normal false)
  else
    JS.Normal (JS.includes testValueLower ruleValue).

(** [getActiveConditionalRedirect(context = {})] *)
Definition getActiveConditionalRedirect (rules : list ConditionalRule.t)
    (context : Context) : JS.completion (option ConditionalRule.t) :=
  JS.find (conditionalRuleApplies context)
    (JS.sort (λ a b, ConditionalRule.priority b - ConditionalRule.priority a)
       (List.filter ConditionalRule.active rules)).

(** [getRedirectUrl(context = {})]; the result is [undefined] ([None])
    when the stored [redirectUrl] is absent. Each strategy block either
    returns its rule's url or falls through to the next statement. *)
Definition getRedirectUrl (this : Profile) (context : Context)
    : JS.completion (option string) :=
  if String.eqb (redirectType this) "static" then JS.Normal (redirectUrl this)
  else
    match
      (if String.eqb (redirectType this) "time-based"
          && (0 <? Z.of_nat (length (timeBasedRedirects this)))
       then getActiveTimeBasedRedirect (timeBasedRedirects this) (timestamp context)
       else None)
    with
    | Some activeTimeRule => JS.Normal (Some (TimeRule.url activeTimeRule))
    | None =>
    match
      (if String.eqb (redirectType this) "geo-based"
          && (0 <? Z.of_nat (length (geoBasedRedirects this)))
       then getActiveGeoBasedRedirect (geoBasedRedirects this) (location context)
       else None)
    with
    | Some geoRule => JS.Normal (Some (GeoRule.url geoRule))
    | None =>
    JS.bind
      (if String.eqb (redirectType this) "conditional"
          && (0 <? Z.of_nat (length (conditionalRedirects this)))
       then getActiveConditionalRedirect (conditionalRedirects this) context
       else JS.Normal None)
      (λ conditionalRule,
         match conditionalRule with
         | Some rule => JS.Normal (Some (ConditionalRule.url rule))
         | None => JS.Normal (redirectUrl this)
         end)
    end
    end.

End Resolver.

(** ** The tap route (routes/tap.js) *)

Module Tap.

Record Owner := { fullName : string }.

(** A card document; [profile] is the id of the associated profile. *)
Record Card := {
  cardUID : string;
  nickname : option string;
  owner : option Owner;
  tapCount : Z;
  lastTapped : option Z;
  isActivated : bool;
  profile : option string
}.

(** The data store: cards by their unique [cardUID], profiles by id, and
    whether it currently rejects a [save()] and with which error. *)
Record Store := {
  cards : gmap string Card;
  profiles : gmap string Profile;
  saveError : option string
}.

Record CardInfo := {
  uid : string;
  info_nickname : option string;
  info_owner : option string;
  info_tapCount : Z;
  hasProfile : bool
}.

(** The body of the success response: [data.card] and [data.redirectUrl]. *)
Record Body := {
  success : bool;
  message : string;
  card : CardInfo;
  body_redirectUrl : option string
}.

Inductive Reply :=
| Status (code : Z) (error : string)
| Json (body : Body)
| Next (error : string).

(** [cardSchema.methods.recordTap] *)
Definition recordTap (st : Store) (now : Z) (this : Card)
    : JS.completion (Store * Card) :=
  let this' :=
    {| cardUID := cardUID this; nickname := nickname this; owner := owner this;
       tapCount := tapCount this + 1; lastTapped := Some now;
       isActivated := isActivated this; profile := profile this |} in
  match saveError st with
  | Some e => JS.Throw e
  | None =>
      JS.Normal
        ({| cards := <[cardUID this' := this']> (cards st);
            profiles := profiles st; saveError := saveError st |}, this')
  end.

(** The statements inside [try] of the handler, once the awaited lookup
    has completed; its rejection is added in [TapMore.tryBlock]. *)
Definition tryBlock (st : Store) (now : Z) (cardUID_param : string)
    : JS.completion (Store * Reply) :=
  match cards st !! JS.toUpperCase cardUID_param with
  | None => JS.Normal (st, Status 404 "Card not found")
  | Some card0 =>
      if negb (isActivated card0) then JS.Normal (st, Status 400 "Card not activated")
      else
        JS.bind (recordTap st now card0) (λ '(st', card1),
          let response :=
            {| success := true;
               message := "Card tapped successfully";
               card := {| uid := cardUID card1;
                          info_nickname := nickname card1;
                          info_owner := fullName <$> owner card1;
                          info_tapCount := tapCount card1;
                          hasProfile := bool_decide (is_Some (profile card1)) |};
               body_redirectUrl :=
                 match profile card1 with
                 | Some _ => Some "https://example.com"
                 | None => None
                 end |} in
          JS.Normal (st', Json response))
  end.

(** [router.get('/:cardUID', ...)]: a throw inside [try] goes to [next(error)]. *)
Definition handler (st : Store) (now : Z) (cardUID_param : string) : Store * Reply :=
  match tryBlock st now cardUID_param with
  | JS.Normal r => r
  | JS.Throw e => (st, Next e)
  end.

End Tap.

(** ** A small regular expression engine for the examples

    Patterns are literal text matched anywhere in the subject, except that a
    pattern holding an unmatched opening parenthesis or bracket does not
    compile. *)

Module ToyRegExp.

Fixpoint depth_ok (s : string) (open_paren : nat) : bool :=
  match s with
  | EmptyString => Nat.eqb open_paren 0
  | String c s' =>
      if Ascii.eqb c "("%char then depth_ok s' (S open_paren)
      else if Ascii.eqb c ")"%char then
        match open_paren with
        | O => false
        | S n => depth_ok s' n
        end
      else if Ascii.eqb c "["%char then false
      else depth_ok s' open_paren
  end.

#[export] Instance engine : JS.RegExpEngine := {|
  JS.RegExp := string * bool;
  JS.RegExp_new pattern flags :=
    if depth_ok pattern 0
    then JS.Normal (pattern, JS.includes flags "i")
    else JS.Throw "SyntaxError: Invalid regular expression";
  JS.RegExp_test re s :=
    if snd re then JS.includes (JS.toLowerCase s) (JS.toLowerCase (fst re))
    else JS.includes s (fst re)
|}.

End ToyRegExp.

(** ** Selection by priority: filter, stable sort, find *)

Section SelectionDefs.

Context {A : Type}.
Variable prio : A → Z.
Variables act applies : A → bool.

Definition byPriorityDesc : A → A → Z := λ a b, prio b - prio a.

(** The shape shared by the geo and the conditional selector. *)
Definition select (l : list A) : option A :=
  List.find applies (JS.sort byPriorityDesc (List.filter act l)).

(** [r] is the winner of [l]: an active applicable rule, above every such
    rule declared before it and not below any declared after it. *)
Definition winner (l : list A) (r : A) : Prop :=
  ∃ l1 l2, l = l1 ++ r :: l2 ∧ act r = true ∧ applies r = true ∧
    Forall (λ y, act y = true → applies y = true → prio y < prio r) l1 ∧
    Forall (λ y, act y = true → applies y = true → prio y ≤ prio r) l2.

Definition descending : A → A → Prop := λ a b, prio b ≤ prio a.

End SelectionDefs.

(** ** The matcher and the resolver in the words of the specification *)

(** A time rule matches: it is active, its days are empty or hold the day,
    and the time lies between its bounds, both included. *)
Definition timeMatches (day : Z) (time : string) (rule : TimeRule.t) : Prop :=
  TimeRule.active rule = true ∧
  (TimeRule.daysOfWeek rule = [] ∨ In day (TimeRule.daysOfWeek rule)) ∧
  JS.str_le (TimeRule.startTime rule) time = true ∧
  JS.str_le time (TimeRule.endTime rule) = true.

(** [r] is the first element of [l] with property [P]. *)
Definition firstWith {A} (P : A → Prop) (l : list A) (r : A) : Prop :=
  ∃ l1 l2, l = l1 ++ r :: l2 ∧ P r ∧ Forall (λ y, ¬ P y) l1.

(** No active rule of the list the strategy selects applies to the context. *)
Definition noRuleApplies `{JS.RegExpEngine} (srv : Date.Server)
    (p : Profile) (ctx : Context) : Prop :=
  let now := default (Date.clockMs srv) (timestamp ctx) in
  (redirectType p = "time-based" →
     Forall (λ r, ¬ timeMatches (Date.getDay srv now) (currentTimeOf srv now) r)
       (timeBasedRedirects p)) ∧
  (redirectType p = "geo-based" →
     Forall (λ r, GeoRule.active r = true →
                  geoRuleApplies (default emptyLocation (location ctx)) r = true → False)
       (geoBasedRedirects p)) ∧
  (redirectType p = "conditional" →
     Forall (λ r, ConditionalRule.active r = true →
                  conditionalRuleApplies ctx r = JS.Normal true → False)
       (conditionalRedirects p)).

(** ** Concrete profiles, contexts and stores *)

Module Examples.

Definition utc : Date.Server := {| Date.tzOffsetMinutes := 0; Date.clockMs := 0 |}.
Definition tokyo : Date.Server := {| Date.tzOffsetMinutes := 540; Date.clockMs := 0 |}.

Definition contextAt (ms : Z) : Context :=
  {| timestamp := Some ms; location := None; signals := ∅ |}.

Definition contextFrom (loc : Location) : Context :=
  {| timestamp := None; location := Some loc; signals := ∅ |}.

Definition contextWith (key val : string) : Context :=
  {| timestamp := None; location := None; signals := {[ key := val ]} |}.

(** Wednesday 7 January 1970, 10:00 UTC, and Saturday 3 January, 10:00 UTC. *)
Definition wednesday10 : Z := 554400000.
Definition saturday10 : Z := 208800000.
(** Thursday 1 January 1970, 12:00 UTC. *)
Definition thursdayNoon : Z := 43200000.

Definition workHours : TimeRule.t :=
  {| TimeRule.name := "work"; TimeRule.startTime := "09:00";
     TimeRule.endTime := "17:00"; TimeRule.daysOfWeek := [1; 2; 3; 4; 5];
     TimeRule.url := "https://work.example"; TimeRule.active := true;
     TimeRule.timezone := "UTC" |}.

Definition newYorkHours : TimeRule.t :=
  {| TimeRule.name := "office"; TimeRule.startTime := "09:00";
     TimeRule.endTime := "17:00"; TimeRule.daysOfWeek := [];
     TimeRule.url := "https://work.example"; TimeRule.active := true;
     TimeRule.timezone := "America/New_York" |}.

Definition nightHours : TimeRule.t :=
  {| TimeRule.name := "night"; TimeRule.startTime := "22:00";
     TimeRule.endTime := "02:00"; TimeRule.daysOfWeek := [];
     TimeRule.url := "https://night.example"; TimeRule.active := true;
     TimeRule.timezone := "UTC" |}.

Definition usRuleAgain : GeoRule.t :=
  {| GeoRule.name := "us-2"; GeoRule.country := Some "US"; GeoRule.region := None;
     GeoRule.city := None; GeoRule.url := "https://us2.example";
     GeoRule.active := true; GeoRule.priority := 5 |}.

Definition usRule : GeoRule.t :=
  {| GeoRule.name := "us"; GeoRule.country := Some "US"; GeoRule.region := None;
     GeoRule.city := None; GeoRule.url := "https://us.example";
     GeoRule.active := true; GeoRule.priority := 5 |}.

Definition caRule : GeoRule.t :=
  {| GeoRule.name := "ca"; GeoRule.country := Some "US"; GeoRule.region := Some "CA";
     GeoRule.city := None; GeoRule.url := "https://ca.example";
     GeoRule.active := true; GeoRule.priority := 10 |}.

Definition california : Location :=
  {| country := Some "US"; region := Some "CA"; city := Some "Fresno" |}.

Definition mobileRule : ConditionalRule.t :=
  {| ConditionalRule.name := "mobile"; ConditionalRule.condition := "device";
     ConditionalRule.value := "mobile"; ConditionalRule.operator := "equals";
     ConditionalRule.url := "https://m.example"; ConditionalRule.active := true;
     ConditionalRule.priority := 1 |}.

(** A regex rule whose pattern does not compile. *)
Definition brokenRegexRule : ConditionalRule.t :=
  {| ConditionalRule.name := "broken"; ConditionalRule.condition := "user-agent";
     ConditionalRule.value := "(iphone"; ConditionalRule.operator := "regex";
     ConditionalRule.url := "https://broken.example"; ConditionalRule.active := true;
     ConditionalRule.priority := 9 |}.

Definition timeProfile : Profile :=
  {| redirectUrl := Some "https://default.example"; redirectType := "time-based";
     timeBasedRedirects := [workHours]; geoBasedRedirects := [];
     conditionalRedirects := [] |}.

Definition geoProfile : Profile :=
  {| redirectUrl := Some "https://default.example"; redirectType := "geo-based";
     timeBasedRedirects := []; geoBasedRedirects := [usRule; caRule];
     conditionalRedirects := [] |}.

Definition conditionalProfile : Profile :=
  {| redirectUrl := Some "https://d.example"; redirectType := "conditional";
     timeBasedRedirects := []; geoBasedRedirects := [];
     conditionalRedirects := [brokenRegexRule; mobileRule] |}.

(** A static profile that still carries rules of every kind. *)
Definition staticProfile : Profile :=
  {| redirectUrl := Some "https://work.example"; redirectType := "static";
     timeBasedRedirects := [workHours]; geoBasedRedirects := [usRule; caRule];
     conditionalRedirects := [mobileRule] |}.


Definition testCard : Tap.Card :=
  {| Tap.cardUID := "TEST0001"; Tap.nickname := Some "demo";
     Tap.owner := Some {| Tap.fullName := "Ada Admin" |};
     Tap.tapCount := 7; Tap.lastTapped := None;
     Tap.isActivated := true; Tap.profile := Some "p1" |}.

Definition healthyStore : Tap.Store :=
  {| Tap.cards := {[ "TEST0001" := testCard ]};
     Tap.profiles := {[ "p1" := staticProfile ]};
     Tap.saveError := None |}.

(** The same store while the database rejects writes. *)
Definition failingStore : Tap.Store :=
  {| Tap.cards := {[ "TEST0001" := testCard ]};
     Tap.profiles := {[ "p1" := staticProfile ]};
     Tap.saveError := Some "MongoNetworkError" |}.

End Examples.

(** ** Times of day as the code prints them *)

(** The character of a decimal digit, a number below 100 in two digits, and
    a time of day as HH:MM. *)
Definition digit (d : Z) : ascii := ascii_of_N (48 + Z.to_N d).
Definition two_digits (n : Z) : string :=
  String (digit (n / 10)) (String (digit (n mod 10)) EmptyString).
Definition hhmm (h m : Z) : string := two_digits h +:+ ":" +:+ two_digits m.

(** The minute of the day on the server's clock face. *)
Definition minuteOfDay (srv : Date.Server) (ms : Z) : Z :=
  Date.getHours srv ms * 60 + Date.getMinutes srv ms.

(** The resolver without its length tests: what each strategy's selector
    finds decides the result. *)
Definition resolveBySelectors `{JS.RegExpEngine} (srv : Date.Server)
    (p : Profile) (ctx : Context) : JS.completion (option string) :=
  if String.eqb (redirectType p) "static" then JS.Normal (redirectUrl p)
  else if String.eqb (redirectType p) "time-based" then
    JS.Normal (from_option (λ r, Some (TimeRule.url r)) (redirectUrl p)
                 (getActiveTimeBasedRedirect srv (timeBasedRedirects p) (timestamp ctx)))
  else if String.eqb (redirectType p) "geo-based" then
    JS.Normal (from_option (λ r, Some (GeoRule.url r)) (redirectUrl p)
                 (getActiveGeoBasedRedirect (geoBasedRedirects p) (location ctx)))
  else if String.eqb (redirectType p) "conditional" then
    JS.bind (getActiveConditionalRedirect (conditionalRedirects p) ctx)
      (λ o, JS.Normal (from_option (λ r, Some (ConditionalRule.url r)) (redirectUrl p) o))
  else JS.Normal (redirectUrl p).

(** A profile with one of its rule lists replaced. *)
Definition setConditionalRedirects (p : Profile) (rules : list ConditionalRule.t) : Profile :=
  {| redirectUrl := redirectUrl p; redirectType := redirectType p;
     timeBasedRedirects := timeBasedRedirects p;
     geoBasedRedirects := geoBasedRedirects p;
     conditionalRedirects := rules |}.
Definition setGeoBasedRedirects (p : Profile) (rules : list GeoRule.t) : Profile :=
  {| redirectUrl := redirectUrl p; redirectType := redirectType p;
     timeBasedRedirects := timeBasedRedirects p;
     geoBasedRedirects := rules;
     conditionalRedirects := conditionalRedirects p |}.
Definition setTimeBasedRedirects (p : Profile) (rules : list TimeRule.t) : Profile :=
  {| redirectUrl := redirectUrl p; redirectType := redirectType p;
     timeBasedRedirects := rules;
     geoBasedRedirects := geoBasedRedirects p;
     conditionalRedirects := conditionalRedirects p |}.

(** Where a resolved url can come from. *)
Definition urlSource (p : Profile) (v : option string) : Prop :=
  v = redirectUrl p ∨
  (redirectType p = "time-based" ∧
   ∃ r, In r (timeBasedRedirects p) ∧ TimeRule.active r = true ∧
        v = Some (TimeRule.url r)) ∨
  (redirectType p = "geo-based" ∧
   ∃ r, In r (geoBasedRedirects p) ∧ GeoRule.active r = true ∧ v = Some (GeoRule.url r)) ∨
  (redirectType p = "conditional" ∧
   ∃ r, In r (conditionalRedirects p) ∧ ConditionalRule.active r = true ∧
        v = Some (ConditionalRule.url r)).

(** The rule the strategy of [p] selects for [ctx] has url [u]. *)
Definition selectsUrl `{JS.RegExpEngine} (srv : Date.Server) (p : Profile)
    (ctx : Context) (u : string) : Prop :=
  let now := default (Date.clockMs srv) (timestamp ctx) in
  (redirectType p = "time-based" ∧
   ∃ r, firstWith (timeMatches (Date.getDay srv now) (currentTimeOf srv now))
          (timeBasedRedirects p) r ∧ u = TimeRule.url r) ∨
  (redirectType p = "geo-based" ∧
   ∃ r, winner GeoRule.priority GeoRule.active
          (geoRuleApplies (default emptyLocation (location ctx)))
          (geoBasedRedirects p) r ∧ u = GeoRule.url r) ∨
  (redirectType p = "conditional" ∧
   ∃ r, winner ConditionalRule.priority ConditionalRule.active
          (λ x, JS.value (conditionalRuleApplies ctx x))
          (conditionalRedirects p) r ∧ u = ConditionalRule.url r).

(** A geo rule that names no place: every field unset or empty. *)
Definition namesNoPlace (rule : GeoRule.t) : bool :=
  negb (JS.truthy (GeoRule.country rule)) && negb (JS.truthy (GeoRule.region rule))
  && negb (JS.truthy (GeoRule.city rule)).

(** A string of ASCII characters only: on such strings the case folding of
    the model is the case folding of the host. *)
Definition isAscii (s : string) : bool :=
  forallb (λ c, (N_of_ascii c <? 128)%N) (list_ascii_of_string s).

(** A context with one signal set, and a rule with another operand. *)
Definition setSignal (ctx : Context) (key val : string) : Context :=
  {| timestamp := timestamp ctx; location := location ctx;
     signals := <[key := val]> (signals ctx) |}.

Definition setValue (rule : ConditionalRule.t) (val : string) : ConditionalRule.t :=
  {| ConditionalRule.name := ConditionalRule.name rule;
     ConditionalRule.condition := ConditionalRule.condition rule;
     ConditionalRule.value := val;
     ConditionalRule.operator := ConditionalRule.operator rule;
     ConditionalRule.url := ConditionalRule.url rule;
     ConditionalRule.active := ConditionalRule.active rule;
     ConditionalRule.priority := ConditionalRule.priority rule |}.

(** The lower-cased signal a rule reads, and its lower-cased operand. *)
Definition signalOf (ctx : Context) (rule : ConditionalRule.t) : string :=
  JS.toLowerCase (JS.or_empty (signals ctx !! ConditionalRule.condition rule)).
Definition operandOf (rule : ConditionalRule.t) : string :=
  JS.toLowerCase (ConditionalRule.value rule).

(** ** Taps in sequence *)

Module TapMore.

(** Every card is stored under its own [cardUID] (the unique index). *)
Definition keyedByUID (st : Tap.Store) : Prop :=
  ∀ k c, Tap.cards st !! k = Some c → Tap.cardUID c = k.

(** The card after [n] recorded taps, the last one at [now]. *)
Definition tapped (c : Tap.Card) (n : Z) (now : Z) : Tap.Card :=
  {| Tap.cardUID := Tap.cardUID c; Tap.nickname := Tap.nickname c;
     Tap.owner := Tap.owner c; Tap.tapCount := Tap.tapCount c + n;
     Tap.lastTapped := Some now; Tap.isActivated := Tap.isActivated c;
     Tap.profile := Tap.profile c |}.

(** The database behind the route: the store, and whether it currently
    rejects a query and with which error. *)
Record Database := {
  store : Tap.Store;
  findError : option string
}.

(** [await Card.findOne({ cardUID: ... }).populate('owner', ...)]: the card
    stored under the uid, [null] when there is none, or a rejection. *)
Definition findOne (db : Database) (uid : string) : JS.completion (option Tap.Card) :=
  match findError db with
  | Some e => JS.Throw e
  | None => JS.Normal (Tap.cards (store db) !! uid)
  end.

(** The [response] object of the handler for the card as recorded. *)
Definition responseOf (card1 : Tap.Card) : Tap.Body :=
  {| Tap.success := true;
     Tap.message := "Card tapped successfully";
     Tap.card := {| Tap.uid := Tap.cardUID card1;
                    Tap.info_nickname := Tap.nickname card1;
                    Tap.info_owner := Tap.fullName <$> Tap.owner card1;
                    Tap.info_tapCount := Tap.tapCount card1;
                    Tap.hasProfile := bool_decide (is_Some (Tap.profile card1)) |};
     Tap.body_redirectUrl :=
       match Tap.profile card1 with
       | Some _ => Some "https://example.com"
       | None => None
       end |}.

(** The statements inside [try] of the handler, the awaited lookup
    included: a rejection of the lookup is thrown like one of the save. *)
Definition tryBlock (db : Database) (now : Z) (cardUID_param : string)
    : JS.completion (Tap.Store * Tap.Reply) :=
  JS.bind (findOne db (JS.toUpperCase cardUID_param)) (λ card,
    match card with
    | None => JS.Normal (store db, Tap.Status 404 "Card not found")
    | Some card0 =>
        if negb (Tap.isActivated card0)
        then JS.Normal (store db, Tap.Status 400 "Card not activated")
        else
          JS.bind (Tap.recordTap (store db) now card0) (λ '(st', card1),
            JS.Normal (st', Tap.Json (responseOf card1)))
    end).

(** [router.get('/:cardUID', ...)] on a database whose queries may be
    rejected: whatever is thrown inside [try] goes to [next(error)]. *)
Definition route (db : Database) (now : Z) (cardUID_param : string)
    : Tap.Store * Tap.Reply :=
  match tryBlock db now cardUID_param with
  | JS.Normal r => r
  | JS.Throw e => (store db, Tap.Next e)
  end.

(** Successive requests for one card, at the given times. *)
Fixpoint tapMany (st : Tap.Store) (times : list Z) (uid : string) : Tap.Store :=
  match times with
  | [] => st
  | now :: times' => tapMany (fst (Tap.handler st now uid)) times' uid
  end.

End TapMore.

(** ** Joining strings *)

Module JSArray.

(** [parts.join(', ')] *)
Fixpoint join (sep : string) (parts : list string) : string :=
  match parts with
  | [] => EmptyString
  | [x] => x
  | x :: rest => x +:+ sep +:+ join sep rest
  end.

End JSArray.

(** ** The card model (models/Card.js) *)

Module CardModel.

Record Analytics := {
  totalTaps : Z;
  uniqueVisitors : Z;
  lastAnalyticsUpdate : option Z
}.

(** The fields of a card document that its methods, virtuals and middleware
    read or write; ids are strings, dates are milliseconds since the epoch. *)
Record Card := {
  cardUID : string;
  owner : option string;
  status : string;
  isActivated : bool;
  activationCode : option string;
  activatedAt : option Z;
  nickname : option string;
  description : option string;
  tapCount : Z;
  lastTapped : option Z;
  profile : option string;
  analytics : Analytics
}.

(** A document in memory: its fields and the paths assigned a new value
    since it was loaded, which is what [isModified] reports. *)
Record Doc := {
  fields : Card;
  modified : gset string
}.

(** The host around a method call: the clock, and the values that
    [Math.floor(Math.random() * characters.length)] takes at each call. *)
Record Host := {
  now : Z;
  randomIndex : nat → Z
}.

Definition isModified (d : Doc) (path : string) : bool :=
  bool_decide (path ∈ modified d).

(** [s.charAt(i)]: the character at [i], or the empty string out of range. *)
Definition charAt (s : string) (i : Z) : string :=
  if i <? 0 then EmptyString
  else match String.get (Z.to_nat i) s with
       | Some c => String c EmptyString
       | None => EmptyString
       end.

Definition characters : string := "ABCDEFGHIJKLMNOPQRSTUVWXYZ0123456789".

(** The loop of [generateActivationCode], [n] rounds left, the next random
    value being the [k]-th. *)
Fixpoint generateLoop (host : Host) (n : nat) (k : nat) (result : string)
    : string * nat :=
  match n with
  | O => (result, k)
  | S n' => generateLoop host n' (S k) (result +:+ charAt characters (randomIndex host k))
  end.

(** [generateActivationCode()], with the count of random values used so far. *)
Definition generateActivationCode (host : Host) (k : nat) : string * nat :=
  generateLoop host 8 k EmptyString.

(** [this.status = v] and [this.tapCount = v]: an assignment marks its path
    as modified when it changes the value. *)
Definition setStatus (d : Doc) (v : string) : Doc :=
  let c := fields d in
  {| fields :=
       {| cardUID := cardUID c; owner := owner c; status := v;
          isActivated := isActivated c; activationCode := activationCode c;
          activatedAt := activatedAt c; nickname := nickname c;
          description := description c; tapCount := tapCount c;
          lastTapped := lastTapped c; profile := profile c;
          analytics := analytics c |};
     modified := if String.eqb (status c) v then modified d
                 else {[ "status" ]} ∪ modified d |}.

Definition setTapCount (d : Doc) (v : Z) : Doc :=
  let c := fields d in
  {| fields :=
       {| cardUID := cardUID c; owner := owner c; status := status c;
          isActivated := isActivated c; activationCode := activationCode c;
          activatedAt := activatedAt c; nickname := nickname c;
          description := description c; tapCount := v;
          lastTapped := lastTapped c; profile := profile c;
          analytics := analytics c |};
     modified := if Z.eqb (tapCount c) v then modified d
                 else {[ "tapCount" ]} ∪ modified d |}.

(** Assignments to the paths whose modification no code of the model asks
    about. *)
Definition withFields (d : Doc) (c : Card) : Doc :=
  {| fields := c; modified := modified d |}.

(** [cardSchema.pre('save', ...)] *)
Definition preSave (host : Host) (k : nat) (d : Doc) : Doc * nat :=
  let '(d1, k1) :=
    if isModified d "status" && String.eqb (status (fields d)) "ready"
       && negb (JS.truthy (activationCode (fields d)))
    then
      let '(code, k') := generateActivationCode host k in
      let c := fields d in
      (withFields d
         {| cardUID := cardUID c; owner := owner c; status := status c;
            isActivated := isActivated c; activationCode := Some code;
            activatedAt := activatedAt c; nickname := nickname c;
            description := description c; tapCount := tapCount c;
            lastTapped := lastTapped c; profile := profile c;
            analytics := analytics c |}, k')
    else (d, k) in
  if isModified d1 "tapCount" then
    let c := fields d1 in
    (withFields d1
       {| cardUID := cardUID c; owner := owner c; status := status c;
          isActivated := isActivated c; activationCode := activationCode c;
          activatedAt := activatedAt c; nickname := nickname c;
          description := description c; tapCount := tapCount c;
          lastTapped := lastTapped c; profile := profile c;
          analytics :=
            {| totalTaps := tapCount c;
               uniqueVisitors := uniqueVisitors (analytics c);
               lastAnalyticsUpdate := Some (now host) |} |}, k1)
  else (d1, k1).

(** [this.save()] as far as the repository's code decides it: the pre-save
    middleware runs, and the saved document has no pending modification. *)
Definition save (host : Host) (k : nat) (d : Doc) : Doc * nat :=
  let '(d', k') := preSave host k d in
  ({| fields := fields d'; modified := ∅ |}, k').

(** [activate(userId)] *)
Definition activate (host : Host) (k : nat) (d : Doc) (userId : string) : Doc * nat :=
  let d1 := setStatus d "activated" in
  let c := fields d1 in
  save host k
    (withFields d1
       {| cardUID := cardUID c; owner := Some userId; status := status c;
          isActivated := true; activationCode := None;
          activatedAt := Some (now host); nickname := nickname c;
          description := description c; tapCount := tapCount c;
          lastTapped := lastTapped c; profile := profile c;
          analytics := analytics c |}).

(** [deactivate()] *)
Definition deactivate (host : Host) (k : nat) (d : Doc) : Doc * nat :=
  save host k (setStatus d "suspended").

(** [recordTap()] *)
Definition recordTap (host : Host) (k : nat) (d : Doc) : Doc * nat :=
  let d1 := setTapCount d (tapCount (fields d) + 1) in
  let c := fields d1 in
  save host k
    (withFields d1
       {| cardUID := cardUID c; owner := owner c; status := status c;
          isActivated := isActivated c; activationCode := activationCode c;
          activatedAt := activatedAt c; nickname := nickname c;
          description := description c; tapCount := tapCount c;
          lastTapped := Some (now host); profile := profile c;
          analytics := analytics c |}).

(** [reset()] *)
Definition reset (host : Host) (k : nat) (d : Doc) : Doc * nat :=
  let d1 := setTapCount (setStatus d "ready") 0 in
  let '(code, k1) := generateActivationCode host k in
  let c := fields d1 in
  save host k1
    (withFields d1
       {| cardUID := cardUID c; owner := None; status := status c;
          isActivated := false; activationCode := Some code;
          activatedAt := None; nickname := None;
          description := None; tapCount := tapCount c;
          lastTapped := None; profile := None;
          analytics :=
            {| totalTaps := 0; uniqueVisitors := 0;
               lastAnalyticsUpdate := Some (now host) |} |}).

(** The virtual [canBeActivated], as the truthiness of what it returns. *)
Definition canBeActivated (c : Card) : bool :=
  String.eqb (status c) "ready" && negb (isActivated c)
  && JS.truthy (activationCode c).

(** [Math.ceil(a / b)] for integers [a] and positive [b]. *)
Definition ceilDiv (a b : Z) : Z := - ((- a) / b).

(** The virtual [daysSinceActivation]; [None] is [null]. *)
Definition daysSinceActivation (host : Host) (c : Card) : option Z :=
  match activatedAt c with
  | None => None
  | Some at_ => Some (ceilDiv (Z.abs (now host - at_)) (1000 * 60 * 60 * 24))
  end.

(** The virtual [activityStatus]. *)
Definition activityStatus (host : Host) (c : Card) : string :=
  match lastTapped c with
  | None => "never-used"
  | Some last =>
      let daysSinceLastTap := ceilDiv (now host - last) (1000 * 60 * 60 * 24) in
      if daysSinceLastTap <=? 1 then "active"
      else if daysSinceLastTap <=? 7 then "recent"
      else if daysSinceLastTap <=? 30 then "moderate"
      else "inactive"
  end.

(** [Card.findByActivationCode(code)]: the first stored card with the
    upper-cased code that is ready and not activated. *)
Definition findByActivationCode (cards : list Card) (code : string) : option Card :=
  List.find
    (λ c, negb (JS.strict_ne (activationCode c) (Some (JS.toUpperCase code)))
          && String.eqb (status c) "ready" && negb (isActivated c))
    cards.

(** What the tap route sees of a stored card, its owner populated from the
    users; a dangling reference populates to [null]. *)
Definition populated (users : gmap string Tap.Owner) (c : Card) : Tap.Card :=
  {| Tap.cardUID := cardUID c; Tap.nickname := nickname c;
     Tap.owner := owner c ≫= (λ id, users !! id);
     Tap.tapCount := tapCount c; Tap.lastTapped := lastTapped c;
     Tap.isActivated := isActivated c; Tap.profile := profile c |}.

(** The pattern of the schema for [activationCode]: six to eight characters,
    each an upper-case letter or a digit. *)
Definition isCodeChar (c : ascii) : bool :=
  let n := N_of_ascii c in
  ((65 <=? n) && (n <=? 90) || (48 <=? n) && (n <=? 57))%N.

Definition matchesCodePattern (s : string) : bool :=
  (6 <=? String.length s)%nat && (String.length s <=? 8)%nat
  && forallb isCodeChar (list_ascii_of_string s).

(** The counter of taps and its copy in the analytics agree. *)
Definition tapsInStep (c : Card) : Prop := totalTaps (analytics c) = tapCount c.

(** Every random value is an index into [characters], as
    [Math.random()] lies in [0, 1). *)
Definition inRange (host : Host) : Prop := ∀ j, 0 ≤ randomIndex host j < 36.

End CardModel.

(** ** The activity model (models/Activity.js) *)

Module ActivityModel.

(** The fields of an activity document that its virtuals and
    [calculateImportanceScore] read or write. A sub-document that is not
    there is [None]; [createdAt] is set by the timestamps of the schema. *)
Record Activity := {
  type : string;
  createdAt : option Z;
  metadata_location : option Location;
  tapData_converted : option bool;
  interviewData_outcome : option string;
  milestoneData_threshold : option Z;
  importanceScore : Z
}.

(** The host: the clock, and [Date.prototype.toLocaleDateString]. *)
Record Host := {
  now : Z;
  toLocaleDateString : Z → string
}.

(** The virtual [timeAgo]; reading [createdAt] of a document that has none
    gives NaN differences, so that every test fails and the last line
    throws. *)
Definition timeAgo (host : Host) (this : Activity) : JS.completion string :=
  match createdAt this with
  | None =>
      JS.Throw "TypeError: Cannot read properties of undefined (reading 'toLocaleDateString')"
  | Some created =>
      let diffMs := now host - created in
      let diffSecs := diffMs / 1000 in
      let diffMins := diffSecs / 60 in
      let diffHours := diffMins / 60 in
      let diffDays := diffHours / 24 in
      if diffSecs <? 60 then JS.Normal "just now"
      else if diffMins <? 60 then JS.Normal (JS.toString diffMins +:+ "m ago")
      else if diffHours <? 24 then JS.Normal (JS.toString diffHours +:+ "h ago")
      else if diffDays <? 7 then JS.Normal (JS.toString diffDays +:+ "d ago")
      else JS.Normal (toLocaleDateString host created)
  end.

(** [[city, region, country].filter(Boolean)] *)
Definition truthyParts (l : list (option string)) : list string :=
  omap (λ o, if JS.truthy o then o else None) l.

(** The virtual [formattedLocation]. *)
Definition formattedLocation (this : Activity) : string :=
  match metadata_location this with
  | None => "Unknown location"
  | Some loc =>
      let parts := truthyParts [city loc; region loc; country loc] in
      if 0 <? Z.of_nat (length parts) then JSArray.join ", " parts
      else "Unknown location"
  end.

(** [typeScores[this.type] || 50], for the types of the schema's enum and
    for any other string that is no key of the table. *)
Definition typeScore (t : string) : Z :=
  if String.eqb t "milestone_reached" then 90
  else if String.eqb t "interview_completed" then 85
  else if String.eqb t "callback_received" then 80
  else if String.eqb t "interview_scheduled" then 70
  else if String.eqb t "card_activated" then 60
  else if String.eqb t "goal_achieved" then 75
  else if String.eqb t "card_tap" then 30
  else if String.eqb t "profile_updated" then 25
  else if String.eqb t "card_created" then 40
  else if String.eqb t "category_created" then 35
  else if String.eqb t "system_event" then 20
  else 50.

Definition setImportanceScore (this : Activity) (v : Z) : Activity :=
  {| type := type this; createdAt := createdAt this;
     metadata_location := metadata_location this;
     tapData_converted := tapData_converted this;
     interviewData_outcome := interviewData_outcome this;
     milestoneData_threshold := milestoneData_threshold this;
     importanceScore := v |}.

(** [calculateImportanceScore()]: the document with its new score, which is
    also the value returned. [hoursOld < n] compares the age in
    milliseconds with [n] hours. *)
Definition calculateImportanceScore (host : Host) (this : Activity)
    : JS.completion Activity :=
  let score := 50 in
  let score := typeScore (type this) in
  match createdAt this with
  | None => JS.Throw "TypeError: Cannot read properties of undefined (reading 'getTime')"
  | Some created =>
      let ageMs := now host - created in
      let score :=
        if ageMs <? 1 * (1000 * 60 * 60) then score + 20
        else if ageMs <? 6 * (1000 * 60 * 60) then score + 10
        else if ageMs <? 24 * (1000 * 60 * 60) then score + 5
        else score in
      let score :=
        if default false (tapData_converted this) then score + 15 else score in
      let score :=
        match interviewData_outcome this with
        | Some o => if String.eqb o "positive" then score + 20 else score
        | None => score
        end in
      let score :=
        match milestoneData_threshold this with
        | Some t => if 1000 <=? t then score + 10 else score
        | None => score
        end in
      JS.Normal (setImportanceScore this (Z.min (Z.max score 0) 100))
  end.

End ActivityModel.

(** The same host at another time. *)
Definition withNow (host : ActivityModel.Host) (t : Z) : ActivityModel.Host :=
  {| ActivityModel.now := t;
     ActivityModel.toLocaleDateString := ActivityModel.toLocaleDateString host |}.

(** ** The error middleware (middleware/errorHandler.js) *)

Module ErrorHandler.

(** [err.code] is a number for the database driver and a string for the
    upload middleware. *)
Inductive Code :=
| CodeNumber (n : Z)
| CodeString (s : string).

(** The properties of the error that the handler reads; a property the
    error does not have is [None]. [errors] holds the [message] of each
    entry of [err.errors], [keyValue] the entries of [err.keyValue]. *)
Record Err := {
  name : option string;
  message : option string;
  code : option Code;
  type : option string;
  statusCode : option Z;
  keyValue : option (list (string * string));
  errors : option (list string);
  stack : option string;
  details : option (list string);
  stripeError : bool
}.

(** The local [error] object, as far as it is read: it starts as a copy of
    the error's own properties and is replaced as a whole by each branch. *)
Record Working := {
  w_message : option string;
  w_statusCode : option Z;
  w_details : option (list string);
  w_stripeError : bool
}.

Record Response := {
  success : bool;
  error : string;
  r_stack : option string;
  r_details : option (list string);
  r_type : option string;
  r_fields : option (list string)
}.

Definition plain (msg : string) (status : Z) : Working :=
  {| w_message := Some msg; w_statusCode := Some status;
     w_details := None; w_stripeError := false |}.

Definition nameIs (err : Err) (n : string) : bool :=
  negb (JS.strict_ne (name err) (Some n)).

Definition typeIs (err : Err) (t : string) : bool :=
  negb (JS.strict_ne (type err) (Some t)).

Definition codeIs (err : Err) (c : Code) : bool :=
  match code err, c with
  | Some (CodeNumber a), CodeNumber b => Z.eqb a b
  | Some (CodeString a), CodeString b => String.eqb a b
  | _, _ => false
  end.

(** A value inside a template literal; [undefined] prints as its name. *)
Definition shown (o : option string) : string := default "undefined" o.

(** The branch for a duplicate key; [Object.keys] of a missing [keyValue]
    throws. *)
Definition duplicateKey (err : Err) : JS.completion Working :=
  match keyValue err with
  | None => JS.Throw "TypeError: Cannot convert undefined or null to object"
  | Some kv =>
      let field := fst <$> head kv in
      let value := snd <$> head kv in
      let message :=
        if negb (JS.strict_ne field (Some "email")) then
          "Email '" +:+ shown value +:+ "' is already registered"
        else if negb (JS.strict_ne field (Some "cardUID")) then
          "Card with UID '" +:+ shown value +:+ "' already exists"
        else if negb (JS.strict_ne field (Some "activationCode")) then
          "Activation code '" +:+ shown value +:+ "' already exists"
        else shown field +:+ " '" +:+ shown value +:+ "' already exists" in
      JS.Normal (plain message 400)
  end.

(** The branch for a validation error; [Object.values] of a missing
    [errors] throws. *)
Definition validationError (err : Err) : JS.completion Working :=
  match errors err with
  | None => JS.Throw "TypeError: Cannot convert undefined or null to object"
  | Some messages =>
      JS.Normal {| w_message := Some (JSArray.join ", " messages);
                   w_statusCode := Some 400;
                   w_details := Some messages; w_stripeError := false |}
  end.

(** [errorHandler(err, req, res, next)] for the value of NODE_ENV: the
    status and the body given to [res.status(...).json(...)]. The lines
    that only write to the console are left out. *)
Definition errorHandler (nodeEnv : option string) (err : Err)
    : JS.completion (Z * Response) :=
  let error0 :=
    {| w_message := message err; w_statusCode := statusCode err;
       w_details := details err; w_stripeError := stripeError err |} in
  let error1 := if nameIs err "CastError" then plain "Resource not found" 404 else error0 in
  JS.bind (if codeIs err (CodeNumber 11000) then duplicateKey err else JS.Normal error1)
    (λ error2,
  JS.bind (if nameIs err "ValidationError" then validationError err else JS.Normal error2)
    (λ error3,
  let error4 := if nameIs err "JsonWebTokenError" then plain "Invalid token" 401 else error3 in
  let error5 := if nameIs err "TokenExpiredError" then plain "Token expired" 401 else error4 in
  let error6 :=
    if codeIs err (CodeString "LIMIT_FILE_SIZE") then plain "File too large" 400 else error5 in
  let error7 :=
    if codeIs err (CodeString "LIMIT_FILE_COUNT") then plain "Too many files" 400 else error6 in
  let error8 :=
    if codeIs err (CodeString "LIMIT_UNEXPECTED_FILE")
    then plain "Unexpected file field" 400 else error7 in
  let error9 :=
    if typeIs err "StripeCardError" then
      {| w_message := Some "Your card was declined"; w_statusCode := Some 402;
         w_details := None; w_stripeError := true |}
    else error8 in
  let error10 :=
    if typeIs err "StripeInvalidRequestError" then
      {| w_message := Some "Invalid payment request"; w_statusCode := Some 400;
         w_details := None; w_stripeError := true |}
    else error9 in
  let error11 :=
    match statusCode err with
    | Some s =>
        if Z.eqb s 429 then plain "Too many requests, please try again later" 429
        else error10
    | None => error10
    end in
  let statusCode :=
    match w_statusCode error11 with
    | Some s => if Z.eqb s 0 then 500 else s
    | None => 500
    end in
  let message := if JS.truthy (w_message error11) then default EmptyString (w_message error11)
                 else "Server Error" in
  let development := negb (JS.strict_ne nodeEnv (Some "development")) in
  let type0 := if w_stripeError error11 then Some "payment_error" else None in
  let type1 := if nameIs err "ValidationError" then Some "validation_error" else type0 in
  let fields := if nameIs err "ValidationError" then w_details error11 else None in
  let type2 := if Z.eqb statusCode 401 then Some "authentication_error" else type1 in
  let type3 := if Z.eqb statusCode 403 then Some "authorization_error" else type2 in
  let type4 := if Z.eqb statusCode 402 then Some "subscription_error" else type3 in
  JS.Normal
    (statusCode,
     {| success := false; error := message;
        r_stack := if development then stack err else None;
        r_details := if development then w_details error11 else None;
        r_type := type4; r_fields := fields |}))).

(** An [Error] with nothing but its message and stack. *)
Definition plainError (msg : string) : Err :=
  {| name := Some "Error"; message := Some msg; code := None; type := None;
     statusCode := None; keyValue := None; errors := None;
     stack := Some ("Error: " +:+ msg); details := None; stripeError := false |}.

End ErrorHandler.

(** ** More concrete rules, cards, activities and errors *)

Module Samples.

Definition singleDigitStart : TimeRule.t :=
  {| TimeRule.name := "morning"; TimeRule.startTime := "9:00";
     TimeRule.endTime := "17:00"; TimeRule.daysOfWeek := [];
     TimeRule.url := "https://morning.example"; TimeRule.active := true;
     TimeRule.timezone := "UTC" |}.

End Samples.

Module CardExamples.
Import CardModel.

Definition host0 : Host := {| now := 1000; randomIndex := λ k, Z.of_nat k * 5 mod 36 |}.

Definition activeDoc : Doc :=
  {| fields :=
       {| cardUID := "TEST0001"; owner := Some "u1"; status := "activated";
          isActivated := true; activationCode := None; activatedAt := Some 10;
          nickname := Some "demo"; description := None; tapCount := 7;
          lastTapped := Some 500; profile := Some "p1";
          analytics := {| totalTaps := 7; uniqueVisitors := 2;
                          lastAnalyticsUpdate := Some 500 |} |};
     modified := ∅ |}.

End CardExamples.

Module ActivityExamples.
Import ActivityModel.
Definition host0 : Host := {| now := 10000000; toLocaleDateString := λ _, "1/1/1970" |}.
Definition tapActivity : Activity :=
  {| type := "card_tap"; createdAt := Some 4000000;
     metadata_location :=
       Some {| country := Some "US"; region := None; city := Some "Fresno" |};
     tapData_converted := Some true; interviewData_outcome := None;
     milestoneData_threshold := None; importanceScore := 0 |}.
End ActivityExamples.

Module ErrorExamples.
Import ErrorHandler.

(** What the payment library raises for a declined card. *)
Definition declinedCard : Err :=
  {| name := Some "Error"; message := Some "card_declined"; code := None;
     type := Some "StripeCardError"; statusCode := Some 402; keyValue := None;
     errors := None; stack := None; details := None; stripeError := false |}.

(** An error that several branches of the handler recognise at once. *)
Definition throttledToken : Err :=
  {| name := Some "JsonWebTokenError"; message := Some "jwt malformed";
     code := None; type := Some "StripeCardError"; statusCode := Some 429;
     keyValue := None; errors := None; stack := None; details := None;
     stripeError := false |}.

End ErrorExamples.

(** * Properties *)

(** ** Facts about the selection by priority *)

Section SelectionFacts.

Context {A : Type}.
Variable prio : A → Z.
Variables act applies : A → bool.

Local Abbreviation byPriorityDesc := (byPriorityDesc prio).
Local Abbreviation descending := (descending prio).
Local Abbreviation select := (select prio act applies).
Local Abbreviation winner := (winner prio act applies).

Lemma sort_insert_In x y l :
  In y (JS.sort_insert byPriorityDesc x l) ↔ y = x ∨ In y l.
Proof.
  induction l as [|z l IH]; simpl.
  - intuition.
  - destruct (byPriorityDesc x z <=? 0); simpl; rewrite ?IH; intuition.
Qed.

Lemma sort_In y l : In y (JS.sort byPriorityDesc l) ↔ In y l.
Proof.
  induction l as [|x l IH]; simpl; [tauto|].
  rewrite sort_insert_In, IH. intuition.
Qed.

Lemma sort_insert_sorted x l :
  StronglySorted descending l →
  StronglySorted descending (JS.sort_insert byPriorityDesc x l).
Proof.
  induction 1 as [|z l Hs IH Hz]; simpl.
  - repeat constructor.
  - destruct (Z.leb_spec (byPriorityDesc x z) 0) as [Hle|Hgt];
      unfold byPriorityDesc in *.
    + constructor; [by constructor|].
      constructor; [unfold descending; lia|].
      eapply Forall_impl; [exact Hz|]. unfold descending. simpl. lia.
    + constructor; [exact IH|].
      apply Forall_forall. intros y Hy.
      apply list_elem_of_In, sort_insert_In in Hy as [->|Hy].
      * unfold descending. lia.
      * rewrite Forall_forall in Hz. apply Hz. by apply list_elem_of_In.
Qed.

Lemma sort_sorted l : StronglySorted descending (JS.sort byPriorityDesc l).
Proof.
  induction l as [|x l IH]; simpl; [constructor|]. by apply sort_insert_sorted.
Qed.

(** What [find] sees after one more element is inserted. *)
Lemma find_sort_insert x l :
  StronglySorted descending l →
  List.find applies (JS.sort_insert byPriorityDesc x l) =
    if applies x then
      match List.find applies l with
      | Some y => if prio y <=? prio x then Some x else Some y
      | None => Some x
      end
    else List.find applies l.
Proof.
  induction 1 as [|z l Hs IH Hz]; simpl.
  - by destruct (applies x).
  - destruct (Z.leb_spec (byPriorityDesc x z) 0) as [Hle|Hgt];
      unfold byPriorityDesc in *; simpl.
    + destruct (applies x) eqn:Hx; [|done].
      destruct (applies z) eqn:Hzz.
      * destruct (Z.leb_spec (prio z) (prio x)); [done|lia].
      * destruct (List.find applies l) as [y|] eqn:Hf; [|done].
        apply find_some in Hf as [Hy _].
        rewrite Forall_forall in Hz.
        apply list_elem_of_In, Hz in Hy. unfold descending in Hy.
        destruct (Z.leb_spec (prio y) (prio x)); [done|lia].
    + destruct (applies z) eqn:Hzz.
      * destruct (applies x); [|done].
        destruct (Z.leb_spec (prio z) (prio x)); [lia|done].
      * exact IH.
Qed.

Lemma select_cons x l :
  select (x :: l) =
    if act x && applies x then
      match select l with
      | Some y => if prio y <=? prio x then Some x else Some y
      | None => Some x
      end
    else select l.
Proof.
  unfold select. simpl. destruct (act x); simpl; [|done].
  apply find_sort_insert, sort_sorted.
Qed.

Lemma select_None l :
  select l = None ↔ Forall (λ y, act y = true → applies y = true → False) l.
Proof.
  induction l as [|x l IH].
  - split; [constructor|done].
  - rewrite select_cons, Forall_cons, <- IH.
    destruct (act x), (applies x); simpl;
      try (destruct (select l) as [y|]; [destruct (prio y <=? prio x)|]);
      split; try done; try tauto; intros [? ?]; done || tauto.
Qed.

Lemma select_Some_winner l r : select l = Some r → winner l r.
Proof.
  revert r. induction l as [|x l IH]; intros r; [done|].
  rewrite select_cons.
  destruct (act x && applies x) eqn:Hx.
  - apply andb_true_iff in Hx as [Ha Hm].
    destruct (select l) as [y|] eqn:Hsel.
    + destruct (IH y eq_refl) as (l1 & l2 & -> & Hay & Hmy & H1 & H2).
      destruct (Z.leb_spec (prio y) (prio x)) as [Hle|Hgt]; intros [= <-].
      * exists [], (l1 ++ y :: l2). repeat split; try done.
        apply Forall_app. split; [|constructor].
        -- eapply Forall_impl; [exact H1|]. simpl. intros z Hz ? ?.
           specialize (Hz ltac:(done) ltac:(done)). lia.
        -- intros _ _. exact Hle.
        -- eapply Forall_impl; [exact H2|]. simpl. intros z Hz ? ?.
           specialize (Hz ltac:(done) ltac:(done)). lia.
      * exists (x :: l1), l2. repeat split; try done.
        constructor; [intros _ _; lia|exact H1].
    + intros [= <-]. exists [], l. repeat split; try done.
      apply select_None in Hsel.
      eapply Forall_impl; [exact Hsel|]. simpl. intros z Hz ? ?.
      destruct (Hz ltac:(done) ltac:(done)).
  - intros Hsel. destruct (IH r Hsel) as (l1 & l2 & -> & Har & Hmr & H1 & H2).
    exists (x :: l1), l2. repeat split; try done.
    constructor; [|exact H1]. intros Ha Hm. rewrite Ha, Hm in Hx. done.
Qed.

Lemma winner_select l r : winner l r → select l = Some r.
Proof.
  intros (l1 & l2 & -> & Har & Hmr & H1 & H2).
  induction l1 as [|x l1 IH]; simpl.
  - rewrite select_cons, Har, Hmr. simpl.
    destruct (select l2) as [y|] eqn:Hsel; [|done].
    apply select_Some_winner in Hsel as (k1 & k2 & -> & Hay & Hmy & _ & _).
    apply Forall_app in H2 as [_ H2]. apply Forall_cons in H2 as [Hy _].
    specialize (Hy Hay Hmy).
    destruct (Z.leb_spec (prio y) (prio r)); [done|lia].
  - apply Forall_cons in H1 as [Hx H1].
    rewrite select_cons, (IH H1).
    destruct (act x) eqn:Ha, (applies x) eqn:Hm; simpl; try done.
    specialize (Hx eq_refl eq_refl).
    destruct (Z.leb_spec (prio r) (prio x)); [lia|done].
Qed.

(** A rule that does not apply can be taken out of the list. *)
Lemma select_remove x l1 l2 :
  applies x = false → select (l1 ++ x :: l2) = select (l1 ++ l2).
Proof.
  intros Hx. induction l1 as [|y l1 IH]; simpl.
  - rewrite select_cons, Hx, andb_false_r. done.
  - rewrite !select_cons, IH. done.
Qed.

Lemma winner_unique l r r' : winner l r → winner l r' → r = r'.
Proof.
  intros Hr Hr'. apply winner_select in Hr, Hr'. congruence.
Qed.

End SelectionFacts.

(** ** The scenarios of the specification, run on the code *)

Module Scenarios.
Import Examples ToyRegExp.

Example weekday_in_window :
  getRedirectUrl utc timeProfile (contextAt wednesday10)
  = JS.Normal (Some "https://work.example").
Proof. vm_compute. reflexivity. Qed.

Example weekend_falls_back :
  getRedirectUrl utc timeProfile (contextAt saturday10)
  = JS.Normal (Some "https://default.example").
Proof. vm_compute. reflexivity. Qed.

Example higher_priority_region_wins :
  getRedirectUrl utc geoProfile (contextFrom california)
  = JS.Normal (Some "https://ca.example").
Proof. vm_compute. reflexivity. Qed.

Example device_equals_ignores_case :
  getRedirectUrl utc conditionalProfile (contextWith "device" "Mobile")
  = JS.Normal (Some "https://m.example").
Proof. vm_compute. reflexivity. Qed.

Example other_device_falls_back :
  getRedirectUrl utc conditionalProfile (contextWith "device" "desktop")
  = JS.Normal (Some "https://d.example").
Proof. vm_compute. reflexivity. Qed.

End Scenarios.

(** ** Time-based selection *)

Section FirstMatch.

Context {A : Type}.
Variables (f : A → bool) (P : A → Prop).
Hypothesis f_decides : ∀ x, f x = true ↔ P x.

Lemma find_Some_firstWith l r : List.find f l = Some r ↔ firstWith P l r.
Proof.
  split.
  - revert r. induction l as [|x l IH]; intros r; simpl; [done|].
    destruct (f x) eqn:Hx.
    + intros [= <-]. exists [], l. repeat split; [|constructor].
      by apply f_decides.
    + intros Hf. destruct (IH r Hf) as (l1 & l2 & -> & Hr & Hl1).
      exists (x :: l1), l2. repeat split; [done|].
      constructor; [|done]. rewrite <- f_decides. congruence.
  - intros (l1 & l2 & -> & Hr & Hl1).
    induction Hl1 as [|x l1 Hx _ IH]; simpl.
    + apply f_decides in Hr. by rewrite Hr.
    + destruct (f x) eqn:Hfx; [|exact IH].
      apply f_decides in Hfx. contradiction.
Qed.

Lemma find_None_Forall l : List.find f l = None ↔ Forall (λ y, ¬ P y) l.
Proof.
  induction l as [|x l IH]; simpl.
  - split; [constructor|done].
  - rewrite Forall_cons, <- IH, <- f_decides.
    destruct (f x); intuition congruence.
Qed.

End FirstMatch.

Lemma find_filter {A} (f g : A → bool) l :
  List.find f (List.filter g l) = List.find (λ x, g x && f x) l.
Proof.
  induction l as [|x l IH]; simpl; [done|].
  destruct (g x); simpl; [|exact IH].
  destruct (f x); [done|exact IH].
Qed.

Lemma timeRuleApplies_timeMatches day time rule :
  TimeRule.active rule && timeRuleApplies day time rule = true
  ↔ timeMatches day time rule.
Proof.
  unfold timeRuleApplies, timeMatches, JS.str_le.
  assert (Hin : existsb (Z.eqb day) (TimeRule.daysOfWeek rule) = true
                ↔ In day (TimeRule.daysOfWeek rule)).
  { rewrite existsb_exists. split.
    - intros (x & Hx & Heq). apply Z.eqb_eq in Heq. by subst.
    - intros Hd. exists day. split; [done|apply Z.eqb_refl]. }
  destruct (TimeRule.active rule); simpl; [|intuition congruence].
  destruct (TimeRule.daysOfWeek rule) as [|d ds] eqn:Hds.
  - simpl. rewrite andb_true_iff. intuition.
  - replace (0 <? Z.of_nat (length (d :: ds))) with true
      by (symmetry; apply Z.ltb_lt; simpl; lia).
    rewrite andb_true_l.
    destruct (existsb (Z.eqb day) (d :: ds)) eqn:He; simpl negb; cbv iota.
    + rewrite andb_true_iff. intuition.
    + split; [done|]. intros (_ & [Hnil|Hd] & _); [done|].
      apply Hin in Hd. done.
Qed.

(** C5: time-based selection returns the first rule, in the order of the
    list, that is active, whose [daysOfWeek] is empty or holds the computed
    day, and whose bounds enclose the computed HH:MM time under the
    comparison of strings, both bounds included; it returns nothing exactly
    when no rule is such; and a rule with no [daysOfWeek] is matched or not
    alike on every day of the week. *)
Theorem C5_time_selection_first_match (srv : Date.Server)
    (rules : list TimeRule.t) (ts : option Z) :
  let now := default (Date.clockMs srv) ts in
  let day := Date.getDay srv now in
  let time := currentTimeOf srv now in
  (∀ r, getActiveTimeBasedRedirect srv rules ts = Some r
        ↔ firstWith (timeMatches day time) rules r) ∧
  (getActiveTimeBasedRedirect srv rules ts = None
   ↔ Forall (λ r, ¬ timeMatches day time r) rules) ∧
  (∀ r d, TimeRule.daysOfWeek r = [] →
     timeRuleApplies d time r
     = JS.str_le (TimeRule.startTime r) time && JS.str_le time (TimeRule.endTime r)).
Proof.
  intros now day time. unfold getActiveTimeBasedRedirect.
  fold now. fold day. fold time. rewrite find_filter.
  split; [|split].
  - intros r. apply find_Some_firstWith. intros x.
    apply timeRuleApplies_timeMatches.
  - apply find_None_Forall. intros x. apply timeRuleApplies_timeMatches.
  - intros r d Hd. unfold timeRuleApplies. by rewrite Hd.
Qed.

(** ** Conditional rules never throw *)

Section ConditionalFacts.

Context `{JS.RegExpEngine}.

Lemma conditionalRuleApplies_Normal ctx rule :
  conditionalRuleApplies ctx rule
  = JS.Normal (JS.value (conditionalRuleApplies ctx rule)).
Proof.
  unfold conditionalRuleApplies.
  repeat (match goal with |- context [if ?b then _ else _] => destruct b end;
          [reflexivity|]); try reflexivity.
  match goal with |- context [if ?b then _ else _] => destruct b end;
    [|reflexivity].
  destruct (JS.RegExp_new _ _); reflexivity.
Qed.

Lemma find_never_throwing {A} (f : A → JS.completion bool) l :
  (∀ x, f x = JS.Normal (JS.value (f x))) →
  JS.find f l = JS.Normal (List.find (λ x, JS.value (f x)) l).
Proof.
  intros Hf. induction l as [|x l IH]; simpl; [done|].
  rewrite (Hf x). simpl. destruct (JS.value (f x)); [done|exact IH].
Qed.

Lemma getActiveConditionalRedirect_select rules ctx :
  getActiveConditionalRedirect rules ctx
  = JS.Normal (select ConditionalRule.priority ConditionalRule.active
                 (λ r, JS.value (conditionalRuleApplies ctx r)) rules).
Proof.
  unfold getActiveConditionalRedirect, select.
  apply find_never_throwing. intros x. apply conditionalRuleApplies_Normal.
Qed.

Lemma conditional_value_true ctx rule :
  JS.value (conditionalRuleApplies ctx rule) = true
  ↔ conditionalRuleApplies ctx rule = JS.Normal true.
Proof.
  rewrite (conditionalRuleApplies_Normal ctx rule) at 2.
  split; [by intros ->|]. by intros [= ->].
Qed.

End ConditionalFacts.

(** C6: among the active rules that apply, the geo selector and the
    conditional selector return the one of highest priority, and of several
    with that priority the one declared first: the selected rule splits the
    list so that every active applicable rule before it has a strictly lower
    priority and none after it has a higher one. Such a rule is unique, so
    the same inputs give the same rule on every call. *)
Theorem C6_priority_selection_stable `{JS.RegExpEngine} :
  (∀ rules loc r,
     getActiveGeoBasedRedirect rules loc = Some r
     ↔ winner GeoRule.priority GeoRule.active
         (geoRuleApplies (default emptyLocation loc)) rules r) ∧
  (∀ rules ctx r,
     getActiveConditionalRedirect rules ctx = JS.Normal (Some r)
     ↔ winner ConditionalRule.priority ConditionalRule.active
         (λ x, JS.value (conditionalRuleApplies ctx x)) rules r) ∧
  (∀ (rules : list GeoRule.t) loc r r',
     winner GeoRule.priority GeoRule.active
       (geoRuleApplies (default emptyLocation loc)) rules r →
     winner GeoRule.priority GeoRule.active
       (geoRuleApplies (default emptyLocation loc)) rules r' → r = r') ∧
  (∀ (rules : list ConditionalRule.t) ctx r r',
     winner ConditionalRule.priority ConditionalRule.active
       (λ x, JS.value (conditionalRuleApplies ctx x)) rules r →
     winner ConditionalRule.priority ConditionalRule.active
       (λ x, JS.value (conditionalRuleApplies ctx x)) rules r' → r = r').
Proof.
  split; [|split; [|split]].
  - intros rules loc r. split.
    + apply select_Some_winner.
    + apply winner_select.
  - intros rules ctx r. rewrite getActiveConditionalRedirect_select. split.
    + intros [= Hsel]. by apply select_Some_winner.
    + intros Hw. f_equal. by apply winner_select.
  - intros rules loc r r'. apply winner_unique.
  - intros rules ctx r r'. apply winner_unique.
Qed.

(** ** The resolver *)

(** One strategy block of [getRedirectUrl] whose selector finds nothing. *)
Ltac strategy_block s Hyp lem :=
  match goal with
  | |- context [String.eqb (redirectType ?p) s && ?len] =>
      let Heq := fresh "Heq" in
      destruct (String.eqb_spec (redirectType p) s) as [Heq|_]; cbn [andb];
      [apply Hyp, lem in Heq; rewrite Heq; destruct len; cbn [JS.bind]|]
  end.

Section ResolverFacts.

Context `{JS.RegExpEngine}.
Variable srv : Date.Server.

Lemma getActiveTimeBasedRedirect_None rules ts :
  let now := default (Date.clockMs srv) ts in
  getActiveTimeBasedRedirect srv rules ts = None
  ↔ Forall (λ r, ¬ timeMatches (Date.getDay srv now) (currentTimeOf srv now) r) rules.
Proof.
  intros now. unfold getActiveTimeBasedRedirect. fold now. rewrite find_filter.
  apply find_None_Forall. intros x. apply timeRuleApplies_timeMatches.
Qed.

Lemma getActiveGeoBasedRedirect_None rules loc :
  getActiveGeoBasedRedirect rules loc = None
  ↔ Forall (λ r, GeoRule.active r = true →
                 geoRuleApplies (default emptyLocation loc) r = true → False) rules.
Proof. apply select_None. Qed.

Lemma getActiveConditionalRedirect_None rules ctx :
  getActiveConditionalRedirect rules ctx = JS.Normal None
  ↔ Forall (λ r, ConditionalRule.active r = true →
                 conditionalRuleApplies ctx r = JS.Normal true → False) rules.
Proof.
  rewrite getActiveConditionalRedirect_select.
  split.
  - intros [= Hsel]. apply select_None in Hsel.
    eapply Forall_impl; [exact Hsel|]. simpl. intros r Hr Ha Hm.
    apply Hr; [done|]. by apply conditional_value_true.
  - intros Hall. f_equal. apply select_None.
    eapply Forall_impl; [exact Hall|]. simpl. intros r Hr Ha Hm.
    apply Hr; [done|]. by apply conditional_value_true.
Qed.


Lemma getRedirectUrl_static p ctx :
  redirectType p = "static" → getRedirectUrl srv p ctx = JS.Normal (redirectUrl p).
Proof. intros Hs. unfold getRedirectUrl. by rewrite Hs. Qed.

Lemma getRedirectUrl_no_rule p ctx :
  noRuleApplies srv p ctx → getRedirectUrl srv p ctx = JS.Normal (redirectUrl p).
Proof.
  intros (Htime & Hgeo & Hcond). unfold getRedirectUrl.
  destruct (String.eqb (redirectType p) "static"); [done|].
  strategy_block "time-based" Htime getActiveTimeBasedRedirect_None;
    strategy_block "geo-based" Hgeo getActiveGeoBasedRedirect_None;
    strategy_block "conditional" Hcond getActiveConditionalRedirect_None;
    reflexivity.
Qed.

End ResolverFacts.

(** C7: under the static strategy the resolver returns the profile's
    [redirectUrl] for every context, and whatever the three rule lists
    hold: replacing them by any other lists leaves the result the same, and
    so does any other server zone, clock, context or regular expression
    engine, which only the evaluation of a rule would consult. *)
Theorem C7_static_ignores_rules `{JS.RegExpEngine} (srv : Date.Server)
    (p : Profile) (ctx : Context) :
  redirectType p = "static" →
  getRedirectUrl srv p ctx = JS.Normal (redirectUrl p) ∧
  (∀ tr gr cr,
     getRedirectUrl srv
       {| redirectUrl := redirectUrl p; redirectType := redirectType p;
          timeBasedRedirects := tr; geoBasedRedirects := gr;
          conditionalRedirects := cr |} ctx
     = getRedirectUrl srv p ctx) ∧
  (∀ (engine' : JS.RegExpEngine) srv' ctx',
     getRedirectUrl (H := engine') srv' p ctx' = getRedirectUrl srv p ctx).
Proof.
  intros Hs. split; [by apply getRedirectUrl_static|]. split.
  - intros tr gr cr. by rewrite !getRedirectUrl_static.
  - intros engine' srv' ctx'. by rewrite !getRedirectUrl_static.
Qed.

Lemma C7_static_ignores_rules_witness :
  redirectType Examples.staticProfile = "static" ∧
  getRedirectUrl (H := ToyRegExp.engine) Examples.utc Examples.staticProfile
    (Examples.contextAt Examples.wednesday10)
  = JS.Normal (Some "https://work.example").
Proof.
  split; [reflexivity|].
  exact (proj1 (C7_static_ignores_rules (H := ToyRegExp.engine) Examples.utc
                  Examples.staticProfile (Examples.contextAt Examples.wednesday10)
                  eq_refl)).
Defined.

(** C8: under a strategy other than static, when the list the strategy
    selects is empty or none of its active rules applies to the context,
    the resolver returns the profile's [redirectUrl], as a normal result. *)
Theorem C8_no_match_returns_default `{JS.RegExpEngine} (srv : Date.Server)
    (p : Profile) (ctx : Context) :
  redirectType p ≠ "static" →
  noRuleApplies srv p ctx →
  getRedirectUrl srv p ctx = JS.Normal (redirectUrl p).
Proof. intros _. apply getRedirectUrl_no_rule. Qed.

Lemma C8_no_match_returns_default_witness :
  redirectType Examples.conditionalProfile ≠ "static" ∧
  noRuleApplies (H := ToyRegExp.engine) Examples.utc Examples.conditionalProfile
    (Examples.contextWith "device" "desktop") ∧
  getRedirectUrl (H := ToyRegExp.engine) Examples.utc Examples.conditionalProfile
    (Examples.contextWith "device" "desktop")
  = JS.Normal (Some "https://d.example").
Proof.
  assert (Hne : redirectType Examples.conditionalProfile ≠ "static") by discriminate.
  assert (Hno : noRuleApplies (H := ToyRegExp.engine) Examples.utc
                  Examples.conditionalProfile (Examples.contextWith "device" "desktop")).
  { split; [discriminate|]. split; [discriminate|]. intros _.
    repeat constructor; intros _; vm_compute; discriminate. }
  split; [exact Hne|]. split; [exact Hno|].
  exact (C8_no_match_returns_default (H := ToyRegExp.engine) Examples.utc
           Examples.conditionalProfile (Examples.contextWith "device" "desktop")
           Hne Hno).
Defined.

(** ** Malformed regular expressions *)

Section RegexFacts.

Context `{JS.RegExpEngine}.

Lemma regex_rule_applies ctx rule :
  ConditionalRule.operator rule = "regex" →
  conditionalRuleApplies ctx rule
  = JS.try_catch
      (JS.bind (JS.RegExp_new (ConditionalRule.value rule) "i")
         (λ regex, JS.Normal
            (JS.RegExp_test regex
               (JS.or_empty (signals ctx !! ConditionalRule.condition rule)))))
      (λ _, JS.Normal false).
Proof. intros Hop. unfold conditionalRuleApplies. by rewrite Hop. Qed.

Lemma getActiveConditionalRedirect_remove ctx rule l1 l2 :
  conditionalRuleApplies ctx rule = JS.Normal false →
  getActiveConditionalRedirect (l1 ++ rule :: l2) ctx
  = getActiveConditionalRedirect (l1 ++ l2) ctx.
Proof.
  intros Hr. rewrite !getActiveConditionalRedirect_select. f_equal.
  apply select_remove. by rewrite Hr.
Qed.

(** The length test of the conditional block changes nothing: on the empty
    list the selector finds nothing either. *)
Lemma conditional_block_length rules ctx :
  (if 0 <? Z.of_nat (length rules)
   then getActiveConditionalRedirect rules ctx else JS.Normal None)
  = getActiveConditionalRedirect rules ctx.
Proof. by destruct rules. Qed.

Lemma getRedirectUrl_conditionalRedirects srv p ctx rules' :
  getActiveConditionalRedirect (conditionalRedirects p) ctx
  = getActiveConditionalRedirect rules' ctx →
  getRedirectUrl srv p ctx
  = getRedirectUrl srv
      {| redirectUrl := redirectUrl p; redirectType := redirectType p;
         timeBasedRedirects := timeBasedRedirects p;
         geoBasedRedirects := geoBasedRedirects p;
         conditionalRedirects := rules' |} ctx.
Proof.
  intros Heq. unfold getRedirectUrl. simpl.
  destruct (String.eqb (redirectType p) "conditional"); simpl; [|done].
  by rewrite !conditional_block_length, Heq.
Qed.

End RegexFacts.

(** C9: for a rule with operator regex, (1) when its pattern is malformed,
    so that building the regular expression throws, the rule's test returns
    false instead of throwing, and the selector and the resolver give what
    they give with the rule taken out of the list, so that the rules of
    lower priority and the default url are reached as before; (2) when the
    pattern compiles, it is built with the flag i and tested against the
    signal's value in its original case; (3) the selector throws on no list
    of rules. *)
Theorem C9_malformed_regex_never_matches `{JS.RegExpEngine}
    (ctx : Context) (rule : ConditionalRule.t) :
  ConditionalRule.operator rule = "regex" →
  (∀ e, JS.RegExp_new (ConditionalRule.value rule) "i" = JS.Throw e →
     conditionalRuleApplies ctx rule = JS.Normal false ∧
     (∀ l1 l2,
        getActiveConditionalRedirect (l1 ++ rule :: l2) ctx
        = getActiveConditionalRedirect (l1 ++ l2) ctx) ∧
     (∀ srv p l1 l2,
        conditionalRedirects p = l1 ++ rule :: l2 →
        getRedirectUrl srv p ctx
        = getRedirectUrl srv
            {| redirectUrl := redirectUrl p; redirectType := redirectType p;
               timeBasedRedirects := timeBasedRedirects p;
               geoBasedRedirects := geoBasedRedirects p;
               conditionalRedirects := l1 ++ l2 |} ctx)) ∧
  (∀ regex, JS.RegExp_new (ConditionalRule.value rule) "i" = JS.Normal regex →
     conditionalRuleApplies ctx rule
     = JS.Normal (JS.RegExp_test regex
                    (JS.or_empty (signals ctx !! ConditionalRule.condition rule)))) ∧
  (∀ rules, ∃ v, getActiveConditionalRedirect rules ctx = JS.Normal v).
Proof.
  intros Hop. split; [|split].
  - intros e He.
    assert (Hfalse : conditionalRuleApplies ctx rule = JS.Normal false).
    { rewrite regex_rule_applies by done. by rewrite He. }
    split; [exact Hfalse|]. split.
    + intros l1 l2. by apply getActiveConditionalRedirect_remove.
    + intros srv p l1 l2 Hp. apply getRedirectUrl_conditionalRedirects.
      rewrite Hp. by apply getActiveConditionalRedirect_remove.
  - intros regex Hre. rewrite regex_rule_applies by done. by rewrite Hre.
  - intros rules. rewrite getActiveConditionalRedirect_select. eauto.
Qed.

Lemma C9_malformed_regex_never_matches_witness :
  ConditionalRule.operator Examples.brokenRegexRule = "regex" ∧
  JS.RegExp_new (RegExpEngine := ToyRegExp.engine)
    (ConditionalRule.value Examples.brokenRegexRule) "i"
  = JS.Throw "SyntaxError: Invalid regular expression" ∧
  conditionalRuleApplies (H := ToyRegExp.engine)
    (Examples.contextWith "user-agent" "iPhone") Examples.brokenRegexRule
  = JS.Normal false.
Proof.
  split; [reflexivity|]. split; [reflexivity|].
  exact (proj1 (proj1 (C9_malformed_regex_never_matches (H := ToyRegExp.engine)
                         (Examples.contextWith "user-agent" "iPhone")
                         Examples.brokenRegexRule eq_refl)
                  "SyntaxError: Invalid regular expression" eq_refl)).
Defined.

(** ** Geo rules with empty fields *)

(** C10: a geo rule's [country], [region] or [city] that is the empty
    string constrains the match no more than the same field left unset: the
    rule's test gives the same answer on every location, and a rule whose
    only set field is an empty [country] applies to visitors from
    anywhere. *)
Theorem C10_empty_geo_field_is_wildcard (loc : Location) (n u : string)
    (a : bool) (p : Z) (c r ci : option string) :
  geoRuleApplies loc
    {| GeoRule.name := n; GeoRule.country := Some EmptyString; GeoRule.region := r;
       GeoRule.city := ci; GeoRule.url := u; GeoRule.active := a; GeoRule.priority := p |}
  = geoRuleApplies loc
    {| GeoRule.name := n; GeoRule.country := None; GeoRule.region := r;
       GeoRule.city := ci; GeoRule.url := u; GeoRule.active := a; GeoRule.priority := p |} ∧
  geoRuleApplies loc
    {| GeoRule.name := n; GeoRule.country := c; GeoRule.region := Some EmptyString;
       GeoRule.city := ci; GeoRule.url := u; GeoRule.active := a; GeoRule.priority := p |}
  = geoRuleApplies loc
    {| GeoRule.name := n; GeoRule.country := c; GeoRule.region := None;
       GeoRule.city := ci; GeoRule.url := u; GeoRule.active := a; GeoRule.priority := p |} ∧
  geoRuleApplies loc
    {| GeoRule.name := n; GeoRule.country := c; GeoRule.region := r;
       GeoRule.city := Some EmptyString; GeoRule.url := u; GeoRule.active := a;
       GeoRule.priority := p |}
  = geoRuleApplies loc
    {| GeoRule.name := n; GeoRule.country := c; GeoRule.region := r;
       GeoRule.city := None; GeoRule.url := u; GeoRule.active := a; GeoRule.priority := p |} ∧
  geoRuleApplies loc
    {| GeoRule.name := n; GeoRule.country := Some EmptyString; GeoRule.region := None;
       GeoRule.city := None; GeoRule.url := u; GeoRule.active := a; GeoRule.priority := p |}
  = true.
Proof. unfold geoRuleApplies. simpl. repeat split. Qed.

(** ** A profile without a default url *)




(** ** The server's time zone *)

(** The test of a time rule does not read the rule's [timezone]. *)
Lemma timeRuleApplies_timezone day time n st en ds u a tz tz' :
  timeRuleApplies day time
    {| TimeRule.name := n; TimeRule.startTime := st; TimeRule.endTime := en;
       TimeRule.daysOfWeek := ds; TimeRule.url := u; TimeRule.active := a;
       TimeRule.timezone := tz |}
  = timeRuleApplies day time
    {| TimeRule.name := n; TimeRule.startTime := st; TimeRule.endTime := en;
       TimeRule.daysOfWeek := ds; TimeRule.url := u; TimeRule.active := a;
       TimeRule.timezone := tz' |}.
Proof. reflexivity. Qed.

(** C2, on the code: at the instant 1970-01-01T12:00Z a rule for 09:00 to
    17:00 in America/New_York is selected by a server whose local zone is
    UTC (local time 12:00) and not selected by a server whose local zone is
    UTC+9 (local time 21:00): the day and the time are those of the
    server's zone, and two servers disagree on one rule and one instant. *)
Theorem C2_server_zone_decides_match :
  TimeRule.timezone Examples.newYorkHours = "America/New_York" ∧
  currentTimeOf Examples.utc Examples.thursdayNoon = "12:00" ∧
  currentTimeOf Examples.tokyo Examples.thursdayNoon = "21:00" ∧
  getActiveTimeBasedRedirect Examples.utc [Examples.newYorkHours]
    (Some Examples.thursdayNoon) = Some Examples.newYorkHours ∧
  getActiveTimeBasedRedirect Examples.tokyo [Examples.newYorkHours]
    (Some Examples.thursdayNoon) = None.
Proof. repeat (split; [vm_compute; reflexivity|]). vm_compute. reflexivity. Qed.

(** ** The tap route *)

(** With a card found, activated and saved, the reply carries the constant
    placeholder url exactly when the card has a profile. *)
Lemma handler_reply st now uid c :
  Tap.cards st !! JS.toUpperCase uid = Some c →
  Tap.isActivated c = true →
  Tap.saveError st = None →
  ∃ st' body,
    Tap.handler st now uid = (st', Tap.Json body) ∧
    Tap.success body = true ∧
    Tap.info_tapCount (Tap.card body) = Tap.tapCount c + 1 ∧
    Tap.body_redirectUrl body
    = match Tap.profile c with
      | Some _ => Some "https://example.com"
      | None => None
      end.
Proof.
  intros Hc Ha Hs. unfold Tap.handler, Tap.tryBlock, Tap.recordTap.
  rewrite Hc, Ha, Hs. simpl. eauto 10.
Qed.

Lemma handler_save_fails st now uid c e :
  Tap.cards st !! JS.toUpperCase uid = Some c →
  Tap.isActivated c = true →
  Tap.saveError st = Some e →
  Tap.handler st now uid = (st, Tap.Next e).
Proof.
  intros Hc Ha Hs. unfold Tap.handler, Tap.tryBlock, Tap.recordTap.
  by rewrite Hc, Ha, Hs.
Qed.

(** C1, on the code: a tap on an activated card whose profile resolves to
    https://work.example is answered with the placeholder
    https://example.com; the handler does not call the resolver. *)
Theorem C1_tap_answers_with_placeholder :
  Tap.cards Examples.healthyStore !! "TEST0001" = Some Examples.testCard ∧
  Tap.isActivated Examples.testCard = true ∧
  Tap.profile Examples.testCard = Some "p1" ∧
  Tap.profiles Examples.healthyStore !! "p1" = Some Examples.staticProfile ∧
  getRedirectUrl (H := ToyRegExp.engine) Examples.utc Examples.staticProfile
    (Examples.contextAt Examples.wednesday10)
  = JS.Normal (Some "https://work.example") ∧
  ∃ st' body,
    Tap.handler Examples.healthyStore Examples.wednesday10 "test0001"
    = (st', Tap.Json body) ∧
    Tap.body_redirectUrl body = Some "https://example.com".
Proof.
  do 5 (split; [vm_compute; reflexivity|]).
  destruct (handler_reply Examples.healthyStore Examples.wednesday10 "test0001"
              Examples.testCard eq_refl eq_refl eq_refl)
    as (st' & body & Hh & _ & _ & Hurl).
  exists st', body. split; [exact Hh|exact Hurl].
Qed.

(** C3, on the code: with a store that rejects the save, the tap on an
    activated card ends in [next(error)] and no reply is sent. *)
Lemma C3_failed_recording_blocks_reply :
  Tap.cards Examples.failingStore !! "TEST0001" = Some Examples.testCard ∧
  Tap.isActivated Examples.testCard = true ∧
  Tap.handler Examples.failingStore Examples.wednesday10 "test0001"
  = (Examples.failingStore, Tap.Next "MongoNetworkError").
Proof.
  split; [reflexivity|]. split; [reflexivity|].
  exact (handler_save_fails Examples.failingStore Examples.wednesday10 "test0001"
           Examples.testCard "MongoNetworkError" eq_refl eq_refl eq_refl).
Qed.

(** C3, as the code has it: for a tap on an activated card, the success
    reply is sent when recording the tap succeeds, and then carries the
    incremented tap count; when recording the tap raises, the handler passes
    that error to [next] and leaves the store as it was. *)
Theorem C3_reply_follows_recording (st : Tap.Store) (now : Z) (uid : string)
    (c : Tap.Card) :
  Tap.cards st !! JS.toUpperCase uid = Some c →
  Tap.isActivated c = true →
  (∀ e, Tap.saveError st = Some e → Tap.handler st now uid = (st, Tap.Next e)) ∧
  (Tap.saveError st = None →
   ∃ st' body,
     Tap.handler st now uid = (st', Tap.Json body) ∧
     Tap.success body = true ∧
     Tap.info_tapCount (Tap.card body) = Tap.tapCount c + 1).
Proof.
  intros Hc Ha. split.
  - intros e He. by eapply handler_save_fails.
  - intros Hs. destruct (handler_reply st now uid c Hc Ha Hs)
      as (st' & body & Hh & Hok & Hn & _).
    eauto.
Qed.

Lemma C3_reply_follows_recording_witness :
  Tap.cards Examples.failingStore !! JS.toUpperCase "test0001"
  = Some Examples.testCard ∧
  Tap.isActivated Examples.testCard = true ∧
  Tap.handler Examples.failingStore Examples.wednesday10 "test0001"
  = (Examples.failingStore, Tap.Next "MongoNetworkError").
Proof.
  split; [reflexivity|]. split; [reflexivity|].
  exact (proj1 (C3_reply_follows_recording Examples.failingStore
                  Examples.wednesday10 "test0001" Examples.testCard
                  eq_refl eq_refl)
           "MongoNetworkError" eq_refl).
Defined.

(** * Further properties of the code *)

(** ** Strings and times of day *)

Lemma ascii_compare_N a b :
  Ascii.compare a b = N.compare (N_of_ascii a) (N_of_ascii b).
Proof. reflexivity. Qed.

Lemma str_le_trans a b c :
  JS.str_le a b = true → JS.str_le b c = true → JS.str_le a c = true.
Proof.
  unfold JS.str_le, String.leb. revert b c.
  induction a as [|x a IH]; intros [|y b] [|z c]; simpl; try done.
  rewrite !ascii_compare_N.
  destruct (N.compare_spec (N_of_ascii x) (N_of_ascii y)) as [Hxy|Hxy|Hxy];
    destruct (N.compare_spec (N_of_ascii y) (N_of_ascii z)) as [Hyz|Hyz|Hyz];
    destruct (N.compare_spec (N_of_ascii x) (N_of_ascii z)) as [Hxz|Hxz|Hxz];
    try done; try lia.
  apply IH.
Qed.

Lemma padStart2_toString n :
  0 ≤ n < 100 → JS.padStart2 (JS.toString n) = two_digits n.
Proof.
  intros Hn.
  assert (Hall : forallb (λ k, String.eqb (JS.padStart2 (JS.toString (Z.of_nat k)))
                                 (two_digits (Z.of_nat k))) (seq 0 100) = true)
    by (vm_compute; reflexivity).
  rewrite forallb_forall in Hall.
  specialize (Hall (Z.to_nat n)). rewrite Z2Nat.id in Hall by lia.
  apply String.eqb_eq, Hall, in_seq. lia.
Qed.

Lemma getHours_range srv ms : 0 ≤ Date.getHours srv ms < 24.
Proof.
  unfold Date.getHours.
  pose proof (Z.mod_pos_bound (Date.localMs srv ms) 86400000 ltac:(lia)).
  split; [apply Z.div_pos; lia|apply Z.div_lt_upper_bound; lia].
Qed.

Lemma getMinutes_range srv ms : 0 ≤ Date.getMinutes srv ms < 60.
Proof.
  unfold Date.getMinutes.
  pose proof (Z.mod_pos_bound (Date.localMs srv ms) 3600000 ltac:(lia)).
  split; [apply Z.div_pos; lia|apply Z.div_lt_upper_bound; lia].
Qed.

Lemma getDay_range srv ms : 0 ≤ Date.getDay srv ms < 7.
Proof. unfold Date.getDay. apply Z.mod_pos_bound. lia. Qed.

(** The time the matcher computes is always a two-digit hour, a colon and a
    two-digit minute. *)
Lemma currentTimeOf_hhmm srv now :
  currentTimeOf srv now = hhmm (Date.getHours srv now) (Date.getMinutes srv now).
Proof.
  unfold currentTimeOf, hhmm.
  pose proof (getHours_range srv now). pose proof (getMinutes_range srv now).
  rewrite !padStart2_toString by lia. reflexivity.
Qed.

Lemma digit_compare a b :
  0 ≤ a < 10 → 0 ≤ b < 10 → Ascii.compare (digit a) (digit b) = (a ?= b).
Proof.
  intros Ha Hb. rewrite ascii_compare_N. unfold digit.
  rewrite !N_ascii_embedding by lia.
  destruct (N.compare_spec (48 + Z.to_N a) (48 + Z.to_N b)),
    (Z.compare_spec a b); try done; lia.
Qed.

Lemma hhmm_le h1 m1 h2 m2 :
  0 ≤ h1 < 100 → 0 ≤ m1 < 100 → 0 ≤ h2 < 100 → 0 ≤ m2 < 100 →
  JS.str_le (hhmm h1 m1) (hhmm h2 m2) = (h1 * 100 + m1 <=? h2 * 100 + m2).
Proof.
  intros H1 M1 H2 M2. unfold JS.str_le, String.leb, hhmm, two_digits. simpl.
  assert (D : ∀ n, 0 ≤ n < 100 → 0 ≤ n / 10 < 10 ∧ 0 ≤ n mod 10 < 10 ∧ n = 10 * (n / 10) + n mod 10).
  { intros n Hn. pose proof (Z.div_mod n 10 ltac:(lia)).
    pose proof (Z.mod_pos_bound n 10 ltac:(lia)).
    split; [split; [apply Z.div_pos; lia|apply Z.div_lt_upper_bound; lia]|]. lia. }
  destruct (D h1 H1) as (? & ? & ?), (D m1 M1) as (? & ? & ?),
    (D h2 H2) as (? & ? & ?), (D m2 M2) as (? & ? & ?).
  rewrite !digit_compare by lia.
  repeat match goal with
  | |- context [?a ?= ?b] => destruct (Z.compare_spec a b)
  end; simpl; symmetry; first [apply Z.leb_le; lia | apply Z.leb_gt; lia].
Qed.

Lemma timeRuleApplies_days day time rule :
  timeRuleApplies day time rule = true
  ↔ (TimeRule.daysOfWeek rule = [] ∨ In day (TimeRule.daysOfWeek rule)) ∧
    JS.str_le (TimeRule.startTime rule) time = true ∧
    JS.str_le time (TimeRule.endTime rule) = true.
Proof.
  pose proof (timeRuleApplies_timeMatches day time rule) as Hm.
  unfold timeMatches in Hm. unfold timeRuleApplies in *.
  destruct (TimeRule.active rule); simpl in Hm; [tauto|].
  (* inactive: the test itself does not read [active] *)
  clear Hm.
  assert (Hin : existsb (Z.eqb day) (TimeRule.daysOfWeek rule) = true
                ↔ In day (TimeRule.daysOfWeek rule)).
  { rewrite existsb_exists. split.
    - intros (x & Hx & Heq). apply Z.eqb_eq in Heq. by subst.
    - intros Hd. exists day. split; [done|apply Z.eqb_refl]. }
  destruct (TimeRule.daysOfWeek rule) as [|d ds] eqn:Hds.
  - simpl. rewrite andb_true_iff. intuition.
  - replace (0 <? Z.of_nat (length (d :: ds))) with true
      by (symmetry; apply Z.ltb_lt; simpl; lia).
    rewrite andb_true_l.
    destruct (existsb (Z.eqb day) (d :: ds)) eqn:He; simpl negb; cbv iota.
    + rewrite andb_true_iff. intuition.
    + split; [done|]. intros ([Hnil|Hd] & _); [done|].
      apply Hin in Hd. done.
Qed.

(** X1: for a time rule whose [startTime] and [endTime] are written HH:MM
    with two digits each, the comparison of strings is the comparison of
    minutes: the rule's test holds exactly when its days are empty or hold
    the day and the minute of the day on the server's clock lies between
    the two bounds, both included. *)
Theorem time_window_is_numeric (srv : Date.Server) (now day : Z)
    (rule : TimeRule.t) (hs ms he me : Z) :
  TimeRule.startTime rule = hhmm hs ms →
  TimeRule.endTime rule = hhmm he me →
  0 ≤ hs < 24 → 0 ≤ ms < 60 → 0 ≤ he < 24 → 0 ≤ me < 60 →
  timeRuleApplies day (currentTimeOf srv now) rule = true
  ↔ (TimeRule.daysOfWeek rule = [] ∨ In day (TimeRule.daysOfWeek rule)) ∧
    hs * 60 + ms ≤ minuteOfDay srv now ≤ he * 60 + me.
Proof.
  intros Hs He Rhs Rms Rhe Rme.
  pose proof (getHours_range srv now) as Rh.
  pose proof (getMinutes_range srv now) as Rm.
  rewrite timeRuleApplies_days, Hs, He, currentTimeOf_hhmm.
  rewrite !hhmm_le by lia. rewrite !Z.leb_le. unfold minuteOfDay.
  split; intros (Hd & Hb); (split; [exact Hd|]); nia.
Qed.

Lemma time_window_is_numeric_witness :
  TimeRule.startTime Examples.workHours = hhmm 9 0 ∧
  TimeRule.endTime Examples.workHours = hhmm 17 0 ∧
  minuteOfDay Examples.utc Examples.wednesday10 = 600 ∧
  timeRuleApplies 3 (currentTimeOf Examples.utc Examples.wednesday10)
    Examples.workHours = true.
Proof.
  split; [reflexivity|]. split; [reflexivity|]. split; [reflexivity|].
  apply (time_window_is_numeric Examples.utc Examples.wednesday10 3
           Examples.workHours 9 0 17 0); try reflexivity; try lia.
  split; [right; simpl; tauto|]. vm_compute. split; discriminate.
Defined.

(** X2: a time rule whose [startTime] is after its [endTime] as strings, a
    window that passes midnight, applies at no time on no day, and the
    selector never returns it. *)
Theorem overnight_window_never_selected (srv : Date.Server) (rule : TimeRule.t) :
  JS.str_le (TimeRule.startTime rule) (TimeRule.endTime rule) = false →
  (∀ day time, timeRuleApplies day time rule = false) ∧
  (∀ rules ts, getActiveTimeBasedRedirect srv rules ts ≠ Some rule).
Proof.
  intros Hwrap.
  assert (Hnever : ∀ day time, timeRuleApplies day time rule = false).
  { intros day time. destruct (timeRuleApplies day time rule) eqn:Ha; [|done].
    apply timeRuleApplies_days in Ha as (_ & H1 & H2).
    rewrite (str_le_trans _ _ _ H1 H2) in Hwrap. done. }
  split; [exact Hnever|].
  intros rules ts Hsel. unfold getActiveTimeBasedRedirect in Hsel.
  apply find_some in Hsel as [_ Ha]. by rewrite Hnever in Ha.
Qed.

Lemma overnight_window_never_selected_witness :
  JS.str_le (TimeRule.startTime Examples.nightHours)
    (TimeRule.endTime Examples.nightHours) = false ∧
  timeRuleApplies 3 "23:30" Examples.nightHours = false.
Proof.
  split; [reflexivity|].
  exact (proj1 (overnight_window_never_selected Examples.utc Examples.nightHours
                  eq_refl) 3 "23:30").
Defined.

Lemma currentTimeOf_first srv now :
  ∃ c rest, currentTimeOf srv now = String c rest ∧ (N_of_ascii c ≤ 50)%N.
Proof.
  rewrite currentTimeOf_hhmm. unfold hhmm, two_digits. simpl.
  eexists _, _. split; [reflexivity|].
  pose proof (getHours_range srv now) as Rh.
  assert (0 ≤ Date.getHours srv now / 10 ≤ 2).
  { split; [apply Z.div_pos; lia|]. apply Z.lt_succ_r.
    apply Z.div_lt_upper_bound; lia. }
  unfold digit. rewrite N_ascii_embedding by lia. lia.
Qed.

(** X3: the computed time starts with 0, 1 or 2, so a time rule whose
    [startTime] starts with a later character, such as the 9:00 that the
    schema's pattern accepts, applies at no instant and is never selected. *)
Theorem late_first_character_never_applies (srv : Date.Server) (rule : TimeRule.t)
    (c : ascii) (rest : string) :
  TimeRule.startTime rule = String c rest →
  (50 < N_of_ascii c)%N →
  (∀ now day, timeRuleApplies day (currentTimeOf srv now) rule = false) ∧
  (∀ rules ts, getActiveTimeBasedRedirect srv rules ts ≠ Some rule).
Proof.
  intros Hs Hc.
  assert (Hnever : ∀ now day, timeRuleApplies day (currentTimeOf srv now) rule = false).
  { intros now day.
    destruct (timeRuleApplies day (currentTimeOf srv now) rule) eqn:Ha; [|done].
    apply timeRuleApplies_days in Ha as (_ & H1 & _).
    destruct (currentTimeOf_first srv now) as (c' & rest' & Hcur & Hc').
    rewrite Hs, Hcur in H1. unfold JS.str_le, String.leb in H1. simpl in H1.
    rewrite ascii_compare_N in H1.
    destruct (N.compare_spec (N_of_ascii c) (N_of_ascii c')); try done; lia. }
  split; [exact Hnever|].
  intros rules ts Hsel. unfold getActiveTimeBasedRedirect in Hsel.
  apply find_some in Hsel as [_ Ha]. by rewrite Hnever in Ha.
Qed.

Lemma late_first_character_never_applies_witness :
  TimeRule.startTime Samples.singleDigitStart = "9:00" ∧
  (50 < N_of_ascii "9")%N ∧
  timeRuleApplies 3 (currentTimeOf Examples.utc Examples.wednesday10)
    Samples.singleDigitStart = false.
Proof.
  split; [reflexivity|]. split; [reflexivity|].
  exact (proj1 (late_first_character_never_applies Examples.utc Samples.singleDigitStart
                  "9" ":00" eq_refl eq_refl) Examples.wednesday10 3).
Defined.

(** ** The resolver as a whole *)

Section ResolverShape.

Context `{JS.RegExpEngine}.
Variable srv : Date.Server.

Lemma time_block_length rules ts :
  (if 0 <? Z.of_nat (length rules)
   then getActiveTimeBasedRedirect srv rules ts else None)
  = getActiveTimeBasedRedirect srv rules ts.
Proof. by destruct rules. Qed.

Lemma geo_block_length rules loc :
  (if 0 <? Z.of_nat (length rules)
   then getActiveGeoBasedRedirect rules loc else None)
  = getActiveGeoBasedRedirect rules loc.
Proof. by destruct rules. Qed.

(** The length tests of [getRedirectUrl] change nothing. *)
Lemma getRedirectUrl_resolveBySelectors p ctx :
  getRedirectUrl srv p ctx = resolveBySelectors srv p ctx.
Proof.
  unfold getRedirectUrl, resolveBySelectors.
  destruct (String.eqb (redirectType p) "static"); [done|].
  destruct (String.eqb_spec (redirectType p) "time-based") as [Ht|_]; cbn [andb].
  - rewrite time_block_length, Ht. simpl.
    by destruct (getActiveTimeBasedRedirect _ _ _).
  - destruct (String.eqb_spec (redirectType p) "geo-based") as [Hg|_]; cbn [andb].
    + rewrite geo_block_length, Hg. simpl.
      by destruct (getActiveGeoBasedRedirect _ _).
    + destruct (String.eqb (redirectType p) "conditional"); cbn [andb]; [|done].
      rewrite conditional_block_length.
      destruct (getActiveConditionalRedirect _ _) as [[r|]|e]; done.
Qed.

Lemma getActiveTimeBasedRedirect_Some rules ts r :
  let now := default (Date.clockMs srv) ts in
  getActiveTimeBasedRedirect srv rules ts = Some r
  ↔ firstWith (timeMatches (Date.getDay srv now) (currentTimeOf srv now)) rules r.
Proof.
  intros now. unfold getActiveTimeBasedRedirect. fold now. rewrite find_filter.
  apply find_Some_firstWith. intros x. apply timeRuleApplies_timeMatches.
Qed.

Lemma getActiveGeoBasedRedirect_select rules loc :
  getActiveGeoBasedRedirect rules loc
  = select GeoRule.priority GeoRule.active
      (geoRuleApplies (default emptyLocation loc)) rules.
Proof. reflexivity. Qed.

End ResolverShape.

Section SelectionOrder.

Context {A : Type}.
Variable prio : A → Z.
Variables act applies : A → bool.

Local Abbreviation select := (select prio act applies).
Local Abbreviation winner := (winner prio act applies).

Lemma select_remove_inactive x l1 l2 :
  act x = false → select (l1 ++ x :: l2) = select (l1 ++ l2).
Proof.
  intros Hx. induction l1 as [|y l1 IH]; simpl.
  - by rewrite select_cons, Hx.
  - by rewrite !select_cons, IH.
Qed.

Lemma select_Some_In l r :
  select l = Some r → In r l ∧ act r = true ∧ applies r = true.
Proof.
  intros Hs. apply select_Some_winner in Hs as (l1 & l2 & -> & Ha & Hm & _).
  split; [|done]. apply in_or_app. right. by left.
Qed.

Lemma winner_bound l r y :
  winner l r → In y l → act y = true → applies y = true → prio y ≤ prio r.
Proof.
  intros (l1 & l2 & -> & Ha & Hm & H1 & H2) Hy Hay Hmy.
  rewrite Forall_forall in H1, H2.
  apply in_app_or in Hy as [Hy|[<-|Hy]].
  - apply list_elem_of_In in Hy. specialize (H1 y Hy Hay Hmy). lia.
  - lia.
  - apply list_elem_of_In in Hy. exact (H2 y Hy Hay Hmy).
Qed.

Lemma select_Permutation l l' :
  Permutation l l' → NoDup (map prio l) → select l = select l'.
Proof.
  intros Hp Hnd. destruct (select l) as [r|] eqn:Hs.
  - symmetry. apply winner_select.
    pose proof (select_Some_winner _ _ _ _ _ Hs) as Hw.
    destruct (select_Some_In _ _ Hs) as (Hin & Ha & Hm).
    assert (Hin' : In r l') by (eapply Permutation_in; eauto).
    apply in_split in Hin' as (k1 & k2 & ->).
    exists k1, k2. repeat split; try done.
    + assert (Hnd' : NoDup (map prio (k1 ++ r :: k2))).
      { apply NoDup_ListNoDup. eapply Permutation_NoDup.
        - apply Permutation_map. exact Hp.
        - by apply NoDup_ListNoDup. }
      rewrite map_app in Hnd'. simpl in Hnd'.
      apply NoDup_app in Hnd' as (_ & Hdis & _).
      apply Forall_forall. intros y Hy Hay Hmy.
      assert (prio y ≤ prio r).
      { eapply winner_bound; eauto. apply Permutation_in with (l := k1 ++ r :: k2).
        - by symmetry.
        - apply in_or_app. left. by apply list_elem_of_In. }
      assert (prio y ≠ prio r).
      { intros Heq. apply (Hdis (prio y)).
        - apply list_elem_of_fmap. eauto.
        - rewrite Heq. left. }
      lia.
    + apply Forall_forall. intros y Hy Hay Hmy.
      eapply winner_bound; eauto. apply Permutation_in with (l := k1 ++ r :: k2).
      * by symmetry.
      * apply in_or_app. right. right. by apply list_elem_of_In.
  - symmetry. apply select_None. apply select_None in Hs.
    rewrite Forall_forall in *. intros y Hy. apply Hs.
    apply list_elem_of_In. apply list_elem_of_In in Hy.
    eapply Permutation_in; [symmetry; exact Hp|exact Hy].
Qed.

End SelectionOrder.

(** X4: the resolver always completes normally, and its result is either the
    profile's [redirectUrl] or the url of an active rule of the one list
    that the profile's [redirectType] names; the url of an inactive rule
    or of a rule of another list is never returned. *)
Theorem resolved_url_source `{JS.RegExpEngine} (srv : Date.Server)
    (p : Profile) (ctx : Context) :
  ∃ v, getRedirectUrl srv p ctx = JS.Normal v ∧ urlSource p v.
Proof.
  rewrite getRedirectUrl_resolveBySelectors. unfold resolveBySelectors, urlSource.
  destruct (String.eqb (redirectType p) "static"); [eauto|].
  destruct (String.eqb_spec (redirectType p) "time-based") as [Ht|_].
  { destruct (getActiveTimeBasedRedirect _ _ _) as [r|] eqn:Hs; simpl; [|eauto].
    eexists. split; [reflexivity|]. right. left. split; [done|].
    unfold getActiveTimeBasedRedirect in Hs. apply find_some in Hs as [Hin _].
    apply filter_In in Hin as [Hin Ha]. eauto. }
  destruct (String.eqb_spec (redirectType p) "geo-based") as [Hg|_].
  { destruct (getActiveGeoBasedRedirect _ _) as [r|] eqn:Hs; simpl; [|eauto].
    eexists. split; [reflexivity|]. right. right. left. split; [done|].
    rewrite getActiveGeoBasedRedirect_select in Hs.
    apply select_Some_In in Hs as (Hin & Ha & _). eauto. }
  destruct (String.eqb_spec (redirectType p) "conditional") as [Hc|_]; [|eauto].
  rewrite getActiveConditionalRedirect_select. simpl.
  destruct (select _ _ _ _) as [r|] eqn:Hs; simpl; [|eauto].
  eexists. split; [reflexivity|]. right. right. right. split; [done|].
  apply select_Some_In in Hs as (Hin & Ha & _). eauto.
Qed.

(** X5: when the strategy's list holds a rule selected for the context (the
    first matching time rule, or the winner by priority among the geo or
    conditional rules), the resolver returns that rule's url. *)
Theorem selected_rule_url_is_returned `{JS.RegExpEngine} (srv : Date.Server)
    (p : Profile) (ctx : Context) (u : string) :
  selectsUrl srv p ctx u → getRedirectUrl srv p ctx = JS.Normal (Some u).
Proof.
  rewrite getRedirectUrl_resolveBySelectors. unfold resolveBySelectors, selectsUrl.
  intros [(Ht & r & Hr & ->)|[(Hg & r & Hr & ->)|(Hc & r & Hr & ->)]].
  - rewrite Ht. simpl. apply getActiveTimeBasedRedirect_Some in Hr. by rewrite Hr.
  - rewrite Hg. simpl. apply winner_select in Hr.
    by rewrite getActiveGeoBasedRedirect_select, Hr.
  - rewrite Hc. simpl. rewrite getActiveConditionalRedirect_select.
    apply winner_select in Hr. by rewrite Hr.
Qed.

Lemma selected_rule_url_is_returned_witness :
  selectsUrl (H := ToyRegExp.engine) Examples.utc Examples.timeProfile
    (Examples.contextAt Examples.wednesday10) "https://work.example" ∧
  getRedirectUrl (H := ToyRegExp.engine) Examples.utc Examples.timeProfile
    (Examples.contextAt Examples.wednesday10)
  = JS.Normal (Some "https://work.example").
Proof.
  assert (Hsel : selectsUrl (H := ToyRegExp.engine) Examples.utc Examples.timeProfile
                   (Examples.contextAt Examples.wednesday10) "https://work.example").
  { left. split; [reflexivity|]. exists Examples.workHours. split; [|reflexivity].
    exists [], []. split; [reflexivity|]. split; [|constructor].
    split; [reflexivity|]. split; [right; vm_compute; tauto|].
    split; vm_compute; reflexivity. }
  split; [exact Hsel|].
  exact (selected_rule_url_is_returned (H := ToyRegExp.engine) Examples.utc
           Examples.timeProfile (Examples.contextAt Examples.wednesday10)
           "https://work.example" Hsel).
Defined.

(** X6: a rule whose [active] flag is false is as good as deleted: taking it
    out of its list changes neither what the three selectors return nor
    what the resolver returns. *)
Theorem inactive_rule_is_inert `{JS.RegExpEngine} (srv : Date.Server) (ctx : Context) :
  (∀ l1 r l2, TimeRule.active r = false →
     getActiveTimeBasedRedirect srv (l1 ++ r :: l2) (timestamp ctx)
     = getActiveTimeBasedRedirect srv (l1 ++ l2) (timestamp ctx)) ∧
  (∀ l1 r l2, GeoRule.active r = false →
     getActiveGeoBasedRedirect (l1 ++ r :: l2) (location ctx)
     = getActiveGeoBasedRedirect (l1 ++ l2) (location ctx)) ∧
  (∀ l1 r l2, ConditionalRule.active r = false →
     getActiveConditionalRedirect (l1 ++ r :: l2) ctx
     = getActiveConditionalRedirect (l1 ++ l2) ctx) ∧
  (∀ p l1 r l2, TimeRule.active r = false → timeBasedRedirects p = l1 ++ r :: l2 →
     getRedirectUrl srv p ctx = getRedirectUrl srv (setTimeBasedRedirects p (l1 ++ l2)) ctx) ∧
  (∀ p l1 r l2, GeoRule.active r = false → geoBasedRedirects p = l1 ++ r :: l2 →
     getRedirectUrl srv p ctx = getRedirectUrl srv (setGeoBasedRedirects p (l1 ++ l2)) ctx) ∧
  (∀ p l1 r l2, ConditionalRule.active r = false → conditionalRedirects p = l1 ++ r :: l2 →
     getRedirectUrl srv p ctx
     = getRedirectUrl srv (setConditionalRedirects p (l1 ++ l2)) ctx).
Proof.
  assert (Ht : ∀ l1 r l2, TimeRule.active r = false →
     getActiveTimeBasedRedirect srv (l1 ++ r :: l2) (timestamp ctx)
     = getActiveTimeBasedRedirect srv (l1 ++ l2) (timestamp ctx)).
  { intros l1 r l2 Hr. unfold getActiveTimeBasedRedirect.
    rewrite !List.filter_app. simpl. by rewrite Hr. }
  assert (Hg : ∀ l1 r l2, GeoRule.active r = false →
     getActiveGeoBasedRedirect (l1 ++ r :: l2) (location ctx)
     = getActiveGeoBasedRedirect (l1 ++ l2) (location ctx)).
  { intros l1 r l2 Hr. rewrite !getActiveGeoBasedRedirect_select.
    by apply select_remove_inactive. }
  assert (Hc : ∀ l1 r l2, ConditionalRule.active r = false →
     getActiveConditionalRedirect (l1 ++ r :: l2) ctx
     = getActiveConditionalRedirect (l1 ++ l2) ctx).
  { intros l1 r l2 Hr. rewrite !getActiveConditionalRedirect_select. f_equal.
    by apply select_remove_inactive. }
  repeat (split; [assumption|]). split; [|split].
  - intros p l1 r l2 Hr Hp. rewrite !getRedirectUrl_resolveBySelectors.
    unfold resolveBySelectors. simpl. by rewrite Hp, Ht.
  - intros p l1 r l2 Hr Hp. rewrite !getRedirectUrl_resolveBySelectors.
    unfold resolveBySelectors. simpl. by rewrite Hp, Hg.
  - intros p l1 r l2 Hr Hp. rewrite !getRedirectUrl_resolveBySelectors.
    unfold resolveBySelectors. simpl. by rewrite Hp, Hc.
Qed.

Lemma geoRuleApplies_unknown rule :
  geoRuleApplies emptyLocation rule = namesNoPlace rule.
Proof.
  unfold geoRuleApplies, namesNoPlace. simpl.
  destruct (GeoRule.country rule) as [c|], (GeoRule.region rule) as [r|],
    (GeoRule.city rule) as [ci|]; simpl;
    repeat match goal with |- context [negb (String.eqb ?s EmptyString)] =>
             destruct (String.eqb s EmptyString) end; reflexivity.
Qed.

(** X7: when the visitor's location is unknown (no location, or one with no
    field), the geo selector can only return a rule whose [country],
    [region] and [city] are all unset or empty; a geo-based profile all of
    whose active rules name a place resolves to its [redirectUrl]. *)
Theorem unknown_location_reaches_only_placeless_rules `{JS.RegExpEngine}
    (srv : Date.Server) (p : Profile) (ctx : Context) :
  location ctx = None ∨ location ctx = Some emptyLocation →
  (∀ r, getActiveGeoBasedRedirect (geoBasedRedirects p) (location ctx) = Some r →
        namesNoPlace r = true) ∧
  (redirectType p = "geo-based" →
   Forall (λ r, GeoRule.active r = true → namesNoPlace r = false) (geoBasedRedirects p) →
   getRedirectUrl srv p ctx = JS.Normal (redirectUrl p)).
Proof.
  intros Hloc.
  assert (Hdef : default emptyLocation (location ctx) = emptyLocation)
    by (by destruct Hloc as [-> | ->]).
  split.
  - intros r Hs. rewrite getActiveGeoBasedRedirect_select, Hdef in Hs.
    apply select_Some_In in Hs as (_ & _ & Ha). by rewrite geoRuleApplies_unknown in Ha.
  - intros Hg Hall. apply getRedirectUrl_no_rule. unfold noRuleApplies.
    rewrite Hg. split; [discriminate|]. split; [|discriminate]. intros _.
    rewrite Hdef. eapply Forall_impl; [exact Hall|]. simpl.
    intros r Hr Ha Happ. rewrite geoRuleApplies_unknown, (Hr Ha) in Happ. done.
Qed.

Lemma unknown_location_reaches_only_placeless_rules_witness :
  location (Examples.contextAt 0) = None ∧
  getRedirectUrl (H := ToyRegExp.engine) Examples.utc Examples.geoProfile
    (Examples.contextAt 0)
  = JS.Normal (Some "https://default.example").
Proof.
  split; [reflexivity|].
  apply (proj2 (unknown_location_reaches_only_placeless_rules (H := ToyRegExp.engine)
                  Examples.utc Examples.geoProfile (Examples.contextAt 0)
                  (or_introl eq_refl))).
  - reflexivity.
  - repeat constructor.
Defined.

(** X8: when the rules of a list have pairwise distinct priorities, the geo
    and the conditional selector return the same rule for every order in
    which the rules are declared. *)
Theorem distinct_priorities_make_order_irrelevant `{JS.RegExpEngine} (ctx : Context) :
  (∀ rules rules', Permutation rules rules' →
     NoDup (map GeoRule.priority rules) →
     getActiveGeoBasedRedirect rules (location ctx)
     = getActiveGeoBasedRedirect rules' (location ctx)) ∧
  (∀ rules rules', Permutation rules rules' →
     NoDup (map ConditionalRule.priority rules) →
     getActiveConditionalRedirect rules ctx
     = getActiveConditionalRedirect rules' ctx).
Proof.
  split; intros rules rules' Hp Hnd.
  - rewrite !getActiveGeoBasedRedirect_select. by apply select_Permutation.
  - rewrite !getActiveConditionalRedirect_select. f_equal. by apply select_Permutation.
Qed.

(** ** Conditional rules *)

Lemma append_cons c a b : String c a +:+ b = String c (a +:+ b).
Proof. reflexivity. Qed.

Lemma append_nil b : EmptyString +:+ b = b.
Proof. reflexivity. Qed.

Lemma prefix_iff t s : String.prefix t s = true ↔ ∃ b, s = t +:+ b.
Proof.
  revert s. induction t as [|c t IH]; intros s; simpl.
  - split; [eauto|]. by destruct s.
  - destruct s as [|d s]; simpl.
    + split; [done|]. intros [b Hb]. done.
    + destruct (Ascii.ascii_dec c d) as [->|Hne].
      * rewrite IH. split; intros [b Hb]; exists b;
          rewrite append_cons in *; congruence.
      * split; [done|]. intros [b Hb]. rewrite append_cons in Hb. congruence.
Qed.

Lemma includes_nil t : JS.includes EmptyString t = String.prefix t EmptyString || false.
Proof. reflexivity. Qed.

Lemma includes_cons c s t :
  JS.includes (String c s) t = String.prefix t (String c s) || JS.includes s t.
Proof. reflexivity. Qed.

Lemma includes_iff s t : JS.includes s t = true ↔ ∃ a b, s = a +:+ t +:+ b.
Proof.
  induction s as [|c s IH].
  - rewrite includes_nil, orb_false_r, prefix_iff. split.
    + intros [b Hb]. by exists EmptyString, b.
    + intros ([|x a] & b & Hab); [eauto|by rewrite append_cons in Hab].
  - rewrite includes_cons, orb_true_iff, prefix_iff, IH. split.
    + intros [[b Hb]|(a & b & Hab)].
      * by exists EmptyString, b.
      * exists (String c a), b. by rewrite append_cons, Hab.
    + intros ([|x a] & b & Hab).
      * left. eauto.
      * right. rewrite append_cons in Hab. injection Hab as _ Hab. eauto.
Qed.

Lemma length_append a b : String.length (a +:+ b) = (String.length a + String.length b)%nat.
Proof.
  induction a as [|c a IH]; [done|]. rewrite append_cons. simpl. by rewrite IH.
Qed.

Lemma substring_whole t : String.substring 0 (String.length t) t = t.
Proof. induction t as [|c t IH]; simpl; [done|]. by rewrite IH. Qed.

Lemma substring_append a t :
  String.substring (String.length a) (String.length t) (a +:+ t) = t.
Proof.
  induction a as [|c a IH]; [apply substring_whole|].
  rewrite append_cons. simpl. exact IH.
Qed.

Lemma substring_split s k :
  (k ≤ String.length s)%nat →
  s = String.substring 0 k s +:+ String.substring k (String.length s - k) s.
Proof.
  revert k. induction s as [|c s IH]; intros k Hk; simpl in *.
  - by destruct k.
  - destruct k as [|k]; simpl.
    + by rewrite substring_whole.
    + rewrite append_cons. f_equal. apply IH. lia.
Qed.

Lemma endsWith_iff s t : JS.endsWith s t = true ↔ ∃ a, s = a +:+ t.
Proof.
  unfold JS.endsWith. rewrite andb_true_iff, Nat.leb_le, String.eqb_eq. split.
  - intros [Hle Hsub].
    exists (String.substring 0 (String.length s - String.length t) s).
    pose proof (substring_split s (String.length s - String.length t) ltac:(lia))
      as Hsplit.
    replace (String.length s - (String.length s - String.length t))%nat
      with (String.length t) in Hsplit by lia.
    by rewrite Hsub in Hsplit.
  - intros [a ->]. rewrite length_append. split; [lia|].
    replace (String.length a + String.length t - String.length t)%nat
      with (String.length a) by lia.
    apply substring_append.
Qed.

Lemma lower_upper_ascii c : JS.lower_ascii (JS.upper_ascii c) = JS.lower_ascii c.
Proof. destruct c as [[] [] [] [] [] [] [] []]; reflexivity. Qed.

Lemma lower_lower_ascii c : JS.lower_ascii (JS.lower_ascii c) = JS.lower_ascii c.
Proof. destruct c as [[] [] [] [] [] [] [] []]; reflexivity. Qed.

Lemma upper_upper_ascii c : JS.upper_ascii (JS.upper_ascii c) = JS.upper_ascii c.
Proof. destruct c as [[] [] [] [] [] [] [] []]; reflexivity. Qed.

Lemma upper_lower_ascii c : JS.upper_ascii (JS.lower_ascii c) = JS.upper_ascii c.
Proof. destruct c as [[] [] [] [] [] [] [] []]; reflexivity. Qed.

Lemma toLowerCase_toUpperCase s : JS.toLowerCase (JS.toUpperCase s) = JS.toLowerCase s.
Proof.
  unfold JS.toLowerCase, JS.toUpperCase.
  induction s as [|c s IH]; simpl; [done|]. by rewrite lower_upper_ascii, IH.
Qed.

Lemma toLowerCase_idem s : JS.toLowerCase (JS.toLowerCase s) = JS.toLowerCase s.
Proof.
  unfold JS.toLowerCase.
  induction s as [|c s IH]; simpl; [done|]. by rewrite lower_lower_ascii, IH.
Qed.

Lemma toUpperCase_idem s : JS.toUpperCase (JS.toUpperCase s) = JS.toUpperCase s.
Proof.
  unfold JS.toUpperCase.
  induction s as [|c s IH]; simpl; [done|]. by rewrite upper_upper_ascii, IH.
Qed.

Lemma toUpperCase_toLowerCase s : JS.toUpperCase (JS.toLowerCase s) = JS.toUpperCase s.
Proof.
  unfold JS.toLowerCase, JS.toUpperCase.
  induction s as [|c s IH]; simpl; [done|]. by rewrite upper_lower_ascii, IH.
Qed.

Lemma toLowerCase_empty s : JS.toLowerCase s = EmptyString ↔ s = EmptyString.
Proof. by destruct s. Qed.

Lemma toUpperCase_empty s : JS.toUpperCase s = EmptyString ↔ s = EmptyString.
Proof. by destruct s. Qed.

Lemma or_empty_Some s : JS.or_empty (Some s) = s.
Proof. unfold JS.or_empty. simpl. by destruct s. Qed.

Lemma or_empty_empty o :
  JS.or_empty o = EmptyString ↔ o = None ∨ o = Some EmptyString.
Proof.
  destruct o as [s|]; [rewrite or_empty_Some|]; split; try done; eauto.
  - intros ->. eauto.
  - intros [|[= ->]]; done.
Qed.

Lemma isAscii_map f s :
  (∀ c, (N_of_ascii c <? 128)%N = true → (N_of_ascii (f c) <? 128)%N = true) →
  isAscii s = true → isAscii (JS.map_string f s) = true.
Proof.
  intros Hf. unfold isAscii. induction s as [|c s IH]; simpl; [done|].
  rewrite !andb_true_iff. intros [Hc Hs]. split; [by apply Hf|by apply IH].
Qed.

Lemma isAscii_toUpperCase s : isAscii s = true → isAscii (JS.toUpperCase s) = true.
Proof.
  apply isAscii_map. intros c.
  destruct c as [[] [] [] [] [] [] [] []]; intros Hc; try discriminate Hc; reflexivity.
Qed.

Lemma isAscii_toLowerCase s : isAscii s = true → isAscii (JS.toLowerCase s) = true.
Proof.
  apply isAscii_map. intros c.
  destruct c as [[] [] [] [] [] [] [] []]; intros Hc; try discriminate Hc; reflexivity.
Qed.

Section ConditionalMeaning.

Context `{JS.RegExpEngine}.

(** X9: what the operators test, on the lower-cased signal and the
    lower-cased operand: equals is equality, starts-with and ends-with say
    that the signal is the operand followed, or preceded, by some text, and
    contains, like every operator the code does not know, says that the
    operand occurs somewhere in the signal. *)
Theorem conditional_operators_meaning (ctx : Context) (rule : ConditionalRule.t) :
  let op := ConditionalRule.operator rule in
  (op = "equals" →
   (conditionalRuleApplies ctx rule = JS.Normal true ↔ signalOf ctx rule = operandOf rule)) ∧
  (op = "starts-with" →
   (conditionalRuleApplies ctx rule = JS.Normal true
    ↔ ∃ b, signalOf ctx rule = operandOf rule +:+ b)) ∧
  (op = "ends-with" →
   (conditionalRuleApplies ctx rule = JS.Normal true
    ↔ ∃ a, signalOf ctx rule = a +:+ operandOf rule)) ∧
  (op ≠ "equals" → op ≠ "starts-with" → op ≠ "ends-with" → op ≠ "regex" →
   (conditionalRuleApplies ctx rule = JS.Normal true
    ↔ ∃ a b, signalOf ctx rule = a +:+ operandOf rule +:+ b)).
Proof.
  intros op. subst op. unfold conditionalRuleApplies, signalOf, operandOf, JS.startsWith.
  split; [|split; [|split]].
  - intros Hop. rewrite Hop. simpl. rewrite <- String.eqb_eq.
    split; [by intros [= ->]|by intros ->].
  - intros Hop. rewrite Hop. simpl. rewrite <- prefix_iff.
    split; [by intros [= ->]|by intros ->].
  - intros Hop. rewrite Hop. simpl. rewrite <- endsWith_iff.
    split; [by intros [= ->]|by intros ->].
  - intros H1 H2 H3 H4.
    apply String.eqb_neq in H1, H2, H3, H4. rewrite H1, H2, H3, H4.
    rewrite <- includes_iff.
    destruct (String.eqb _ "contains"); (split; [by intros [= ->]|by intros ->]).
Qed.

Lemma conditionalRuleApplies_lower ctx ctx' rule rule' :
  ConditionalRule.operator rule ≠ "regex" →
  ConditionalRule.operator rule' = ConditionalRule.operator rule →
  signalOf ctx' rule' = signalOf ctx rule →
  operandOf rule' = operandOf rule →
  conditionalRuleApplies ctx' rule' = conditionalRuleApplies ctx rule.
Proof.
  intros Hre Hop Hs Hv. unfold conditionalRuleApplies, signalOf, operandOf in *.
  rewrite Hop, Hs, Hv. apply String.eqb_neq in Hre. rewrite Hre.
  repeat match goal with |- context [if ?b then _ else _] => destruct b end; reflexivity.
Qed.

(** X10: for every operator but regex the test ignores the case of ASCII
    letters: when the signal's value and the rule's operand are ASCII
    strings, writing both in upper case, or both in lower case, leaves the
    result the same. *)
Theorem conditional_test_ignores_case (ctx : Context) (rule : ConditionalRule.t)
    (v : string) :
  ConditionalRule.operator rule ≠ "regex" →
  signals ctx !! ConditionalRule.condition rule = Some v →
  isAscii v = true →
  isAscii (ConditionalRule.value rule) = true →
  conditionalRuleApplies
    (setSignal ctx (ConditionalRule.condition rule) (JS.toUpperCase v))
    (setValue rule (JS.toUpperCase (ConditionalRule.value rule)))
  = conditionalRuleApplies ctx rule ∧
  conditionalRuleApplies
    (setSignal ctx (ConditionalRule.condition rule) (JS.toLowerCase v))
    (setValue rule (JS.toLowerCase (ConditionalRule.value rule)))
  = conditionalRuleApplies ctx rule ∧
  isAscii (JS.toUpperCase v) = true ∧ isAscii (JS.toLowerCase v) = true ∧
  isAscii (JS.toUpperCase (ConditionalRule.value rule)) = true ∧
  isAscii (JS.toLowerCase (ConditionalRule.value rule)) = true.
Proof.
  intros Hre Hv Hav Har.
  split; [|split].
  - apply conditionalRuleApplies_lower; try done;
      unfold signalOf, operandOf, setSignal, setValue; simpl;
      rewrite ?lookup_insert_eq, ?Hv, ?or_empty_Some,
        ?toLowerCase_toUpperCase, ?toLowerCase_idem; reflexivity.
  - apply conditionalRuleApplies_lower; try done;
      unfold signalOf, operandOf, setSignal, setValue; simpl;
      rewrite ?lookup_insert_eq, ?Hv, ?or_empty_Some,
        ?toLowerCase_toUpperCase, ?toLowerCase_idem; reflexivity.
  - repeat split; first [by apply isAscii_toUpperCase | by apply isAscii_toLowerCase].
Qed.

(** X11: when the context lacks the signal a rule reads, or holds it empty,
    a rule with any operator but regex applies exactly when its operand is
    empty: a rule with an operand never matches a missing signal. *)
Theorem missing_signal_matches_only_empty_operand (ctx : Context)
    (rule : ConditionalRule.t) :
  ConditionalRule.operator rule ≠ "regex" →
  signals ctx !! ConditionalRule.condition rule = None ∨
  signals ctx !! ConditionalRule.condition rule = Some EmptyString →
  conditionalRuleApplies ctx rule
  = JS.Normal (String.eqb (ConditionalRule.value rule) EmptyString).
Proof.
  intros Hre Hmiss. apply or_empty_empty in Hmiss.
  unfold conditionalRuleApplies. rewrite Hmiss.
  apply String.eqb_neq in Hre. rewrite Hre.
  destruct (ConditionalRule.value rule) as [|c v]; simpl;
    repeat match goal with |- context [if ?b then _ else _] => destruct b end;
    reflexivity.
Qed.

End ConditionalMeaning.

Lemma conditional_test_ignores_case_witness :
  ConditionalRule.operator Examples.mobileRule ≠ "regex" ∧
  signals (Examples.contextWith "device" "Mobile") !! "device" = Some "Mobile" ∧
  isAscii "Mobile" = true ∧
  isAscii (ConditionalRule.value Examples.mobileRule) = true ∧
  conditionalRuleApplies (H := ToyRegExp.engine)
    (setSignal (Examples.contextWith "device" "Mobile") "device" "MOBILE")
    (setValue Examples.mobileRule "MOBILE")
  = JS.Normal true.
Proof.
  assert (Hop : ConditionalRule.operator Examples.mobileRule ≠ "regex") by discriminate.
  split; [exact Hop|]. split; [reflexivity|]. split; [reflexivity|].
  split; [reflexivity|].
  exact (eq_trans
           (proj1 (conditional_test_ignores_case (H := ToyRegExp.engine)
                     (Examples.contextWith "device" "Mobile") Examples.mobileRule
                     "Mobile" Hop eq_refl eq_refl eq_refl))
           eq_refl).
Defined.

Lemma missing_signal_matches_only_empty_operand_witness :
  ConditionalRule.operator Examples.mobileRule ≠ "regex" ∧
  signals (Examples.contextAt 0) !! "device" = None ∧
  conditionalRuleApplies (H := ToyRegExp.engine) (Examples.contextAt 0)
    Examples.mobileRule = JS.Normal false.
Proof.
  assert (Hop : ConditionalRule.operator Examples.mobileRule ≠ "regex") by discriminate.
  split; [exact Hop|]. split; [reflexivity|].
  exact (missing_signal_matches_only_empty_operand (H := ToyRegExp.engine)
           (Examples.contextAt 0) Examples.mobileRule Hop (or_introl eq_refl)).
Defined.

(** ** The tap route on a store *)

Section TapFacts.

Import TapMore.

(** With no rejected query the route is the handler on the store. *)
Lemma route_handler (db : Database) (t : Z) (uid : string) :
  findError db = None → route db t uid = Tap.handler (store db) t uid.
Proof.
  intros Hf. unfold route, tryBlock, findOne, Tap.handler, Tap.tryBlock.
  rewrite Hf. cbn [JS.bind].
  destruct (Tap.cards (store db) !! JS.toUpperCase uid) as [c|]; [|done].
  destruct (Tap.isActivated c); cbn [negb]; [|done].
  destruct (Tap.recordTap (store db) t c) as [[st' c1]|e]; done.
Qed.

Lemma route_lookup_rejected (db : Database) (t : Z) (uid e : string) :
  findError db = Some e → route db t uid = (store db, Tap.Next e).
Proof. intros Hf. unfold route, tryBlock, findOne. by rewrite Hf. Qed.

(** X12: the outcomes of the tap route, the awaited lookup included, for an
    ASCII uid, and when each occurs: 404 for an unknown card and 400 for a
    card that is not activated, both after a lookup that was not rejected
    and both leaving the store as it was; [next(error)] with the store as it
    was either for a rejected lookup, or for an activated card whose save is
    rejected; and the success reply for an activated card, found by a
    lookup that was not rejected, whose save succeeds, the stored card then
    counting one more tap. *)
Theorem tap_reply_classification (db : Database) (t : Z) (uid : string) :
  isAscii uid = true →
  let st := store db in
  let found := Tap.cards st !! JS.toUpperCase uid in
  match route db t uid with
  | (st', Tap.Status code msg) =>
      st' = st ∧ findError db = None ∧
      ((code = 404 ∧ msg = "Card not found" ∧ found = None) ∨
       (code = 400 ∧ msg = "Card not activated" ∧
        ∃ c, found = Some c ∧ Tap.isActivated c = false))
  | (st', Tap.Next e) =>
      st' = st ∧
      (findError db = Some e ∨
       (findError db = None ∧ Tap.saveError st = Some e ∧
        ∃ c, found = Some c ∧ Tap.isActivated c = true))
  | (st', Tap.Json body) =>
      findError db = None ∧ Tap.saveError st = None ∧ Tap.success body = true ∧
      ∃ c, found = Some c ∧ Tap.isActivated c = true ∧
           Tap.cards st' = <[Tap.cardUID c := tapped c 1 t]> (Tap.cards st)
  end.
Proof.
  intros _ st found. subst st found.
  destruct (findError db) as [e0|] eqn:Hf.
  { rewrite (route_lookup_rejected db t uid e0 Hf). split; [done|]. by left. }
  unfold route, tryBlock, findOne, Tap.recordTap. rewrite Hf. cbn [JS.bind].
  destruct (Tap.cards (store db) !! JS.toUpperCase uid) as [c|] eqn:Hc.
  - destruct (Tap.isActivated c) eqn:Ha; cbn [negb].
    + destruct (Tap.saveError (store db)) as [e|] eqn:Hs; cbn [JS.bind].
      * split; [done|]. right. eauto 10.
      * split; [done|]. split; [done|]. split; [done|].
        exists c. split; [done|]. split; [done|].
        cbn [Tap.cards Tap.cardUID]. unfold tapped. by rewrite Ha.
    + split; [done|]. split; [done|]. right. eauto 10.
  - split; [done|]. split; [done|]. left. done.
Qed.

Lemma tap_reply_classification_witness :
  isAscii "test0001" = true ∧
  ∃ st' body,
    route {| store := Examples.healthyStore; findError := None |} 5 "test0001"
    = (st', Tap.Json body) ∧
    Tap.success body = true.
Proof.
  split; [reflexivity|].
  pose proof (tap_reply_classification
                {| store := Examples.healthyStore; findError := None |} 5 "test0001"
                eq_refl) as Hc.
  cbv zeta in Hc.
  destruct (route {| store := Examples.healthyStore; findError := None |} 5 "test0001")
    as [st' reply] eqn:Hr.
  assert (Hj : ∃ body, reply = Tap.Json body).
  { revert Hr. vm_compute. intros [= _ <-]. eexists. reflexivity. }
  destruct Hj as [body ->].
  exists st', body. split; [reflexivity|]. exact (proj1 (proj2 (proj2 Hc))).
Defined.

(** X13: the card is looked up by the upper-cased parameter, so for an
    ASCII uid the route, with or without the lookup, answers the same for
    the uid written in upper case, in lower case or as given. *)
Theorem tap_uid_ignores_case (db : Database) (now : Z) (uid : string) :
  isAscii uid = true →
  route db now (JS.toUpperCase uid) = route db now uid ∧
  route db now (JS.toLowerCase uid) = route db now uid ∧
  Tap.handler (store db) now (JS.toUpperCase uid) = Tap.handler (store db) now uid ∧
  Tap.handler (store db) now (JS.toLowerCase uid) = Tap.handler (store db) now uid.
Proof.
  intros _. unfold route, tryBlock, Tap.handler, Tap.tryBlock.
  by rewrite toUpperCase_idem, toUpperCase_toLowerCase.
Qed.

Lemma tap_uid_ignores_case_witness :
  isAscii "test0001" = true ∧
  route {| store := Examples.healthyStore; findError := None |} 5 "TEST0001"
  = route {| store := Examples.healthyStore; findError := None |} 5 "test0001".
Proof.
  split; [reflexivity|].
  exact (proj1 (tap_uid_ignores_case
                  {| store := Examples.healthyStore; findError := None |} 5 "test0001"
                  eq_refl)).
Defined.

Lemma handler_effect (st : Tap.Store) (now : Z) (uid : string)
    (c : Tap.Card) :
  keyedByUID st →
  Tap.cards st !! JS.toUpperCase uid = Some c →
  Tap.isActivated c = true →
  Tap.saveError st = None →
  ∃ st' body,
    Tap.handler st now uid = (st', Tap.Json body) ∧
    Tap.cards st' = <[JS.toUpperCase uid := tapped c 1 now]> (Tap.cards st) ∧
    Tap.profiles st' = Tap.profiles st ∧
    Tap.saveError st' = Tap.saveError st ∧
    keyedByUID st' ∧
    Tap.uid (Tap.card body) = JS.toUpperCase uid ∧
    Tap.info_tapCount (Tap.card body) = Tap.tapCount c + 1 ∧
    (Tap.hasProfile (Tap.card body) = true ↔ is_Some (Tap.body_redirectUrl body)).
Proof.
  intros Hkey Hc Ha Hs. unfold Tap.handler, Tap.tryBlock, Tap.recordTap.
  rewrite Hc, Ha, Hs. simpl. eexists _, _. split; [reflexivity|]. simpl.
  pose proof (Hkey _ _ Hc) as Huid. rewrite Huid.
  repeat split; try done.
  - unfold tapped. by rewrite Huid, Ha.
  - intros k c'. simpl. rewrite lookup_insert.
    case_decide as Hk; [|apply Hkey]. intros [= <-]. simpl. congruence.
  - rewrite bool_decide_eq_true. destruct (Tap.profile c); simpl; [eauto|].
    by intros [? ?].
  - rewrite bool_decide_eq_true. destruct (Tap.profile c); simpl; [eauto|].
    by intros [? ?].
Qed.

(** X14: on a store that keeps each card under its own [cardUID], a tap on
    an activated card whose save succeeds stores that card with one more
    tap and the time of the tap, leaves the profiles and every other card
    alone, keeps the store keyed by [cardUID], and replies with the new
    count; the reply carries a redirect url exactly when it says the card
    has a profile. *)
Theorem tap_records_exactly_one_tap (st : Tap.Store) (now : Z) (uid : string)
    (c : Tap.Card) :
  keyedByUID st →
  Tap.cards st !! JS.toUpperCase uid = Some c →
  Tap.isActivated c = true →
  Tap.saveError st = None →
  ∃ st' body,
    Tap.handler st now uid = (st', Tap.Json body) ∧
    Tap.cards st' = <[JS.toUpperCase uid := tapped c 1 now]> (Tap.cards st) ∧
    (∀ k, k ≠ JS.toUpperCase uid → Tap.cards st' !! k = Tap.cards st !! k) ∧
    Tap.profiles st' = Tap.profiles st ∧
    keyedByUID st' ∧
    Tap.info_tapCount (Tap.card body) = Tap.tapCount c + 1 ∧
    (Tap.hasProfile (Tap.card body) = true ↔ is_Some (Tap.body_redirectUrl body)).
Proof.
  intros Hkey Hc Ha Hs.
  destruct (handler_effect st now uid c Hkey Hc Ha Hs)
    as (st' & body & Hh & Hcards & Hprof & _ & Hkey' & _ & Hn & Hp).
  exists st', body. split; [exact Hh|]. split; [exact Hcards|]. split.
  - intros k Hk. rewrite Hcards. by apply lookup_insert_ne.
  - repeat split; try assumption; by apply Hp.
Qed.

Lemma tap_records_exactly_one_tap_witness :
  keyedByUID Examples.healthyStore ∧
  Tap.cards Examples.healthyStore !! JS.toUpperCase "test0001" = Some Examples.testCard ∧
  Tap.isActivated Examples.testCard = true ∧
  Tap.saveError Examples.healthyStore = None ∧
  ∃ st' body,
    Tap.handler Examples.healthyStore 5 "test0001" = (st', Tap.Json body) ∧
    Tap.info_tapCount (Tap.card body) = 8.
Proof.
  assert (Hk : keyedByUID Examples.healthyStore).
  { intros k c. unfold Examples.healthyStore. simpl.
    rewrite lookup_singleton. case_decide; [|done]. by intros [= <-]. }
  split; [exact Hk|]. split; [reflexivity|]. split; [reflexivity|].
  split; [reflexivity|].
  destruct (tap_records_exactly_one_tap Examples.healthyStore 5 "test0001"
              Examples.testCard Hk eq_refl eq_refl eq_refl)
    as (st' & body & Hh & _ & _ & _ & _ & Hn & _).
  exists st', body. split; [exact Hh|exact Hn].
Defined.

Lemma tapMany_tapped st times uid c :
  keyedByUID st →
  Tap.cards st !! JS.toUpperCase uid = Some c →
  Tap.isActivated c = true →
  Tap.saveError st = None →
  times ≠ [] →
  Tap.cards (tapMany st times uid)
  = <[JS.toUpperCase uid := tapped c (Z.of_nat (length times)) (List.last times 0)]>
      (Tap.cards st) ∧
  Tap.profiles (tapMany st times uid) = Tap.profiles st.
Proof.
  revert st c. induction times as [|now times IH]; intros st c Hkey Hc Ha Hs Hne; [done|].
  destruct (handler_effect st now uid c Hkey Hc Ha Hs)
    as (st' & body & Hh & Hcards & Hprof & Hsave & Hkey' & _).
  simpl tapMany. rewrite Hh. simpl fst.
  destruct times as [|now' times].
  - simpl. split; [|done]. rewrite Hcards. done.
  - assert (Hc' : Tap.cards st' !! JS.toUpperCase uid = Some (tapped c 1 now))
      by (rewrite Hcards; apply lookup_insert_eq).
    destruct (IH st' (tapped c 1 now) Hkey' Hc' Ha ltac:(congruence) ltac:(done))
      as [Hcs Hps].
    split; [|congruence].
    rewrite Hcs, Hcards, insert_insert_eq.
    f_equal. unfold tapped. simpl Tap.tapCount. f_equal.
    cbn [length]. lia.
Qed.

(** X15: taps add up: after any non-empty sequence of taps on an activated
    card, on a store keyed by [cardUID] whose saves succeed, the stored card
    counts as many taps more as there were requests and holds the time of
    the last one, and every other card is as it was. *)
Theorem taps_accumulate (st : Tap.Store) (times : list Z) (uid : string)
    (c : Tap.Card) :
  keyedByUID st →
  Tap.cards st !! JS.toUpperCase uid = Some c →
  Tap.isActivated c = true →
  Tap.saveError st = None →
  times ≠ [] →
  (∃ c', Tap.cards (tapMany st times uid) !! JS.toUpperCase uid = Some c' ∧
         Tap.tapCount c' = Tap.tapCount c + Z.of_nat (length times) ∧
         Tap.lastTapped c' = Some (List.last times 0)) ∧
  (∀ k, k ≠ JS.toUpperCase uid →
        Tap.cards (tapMany st times uid) !! k = Tap.cards st !! k).
Proof.
  intros Hkey Hc Ha Hs Hne.
  destruct (tapMany_tapped st times uid c Hkey Hc Ha Hs Hne) as [Hcs _].
  rewrite Hcs. split.
  - eexists. rewrite lookup_insert_eq. split; [reflexivity|]. done.
  - intros k Hk. by rewrite lookup_insert_ne.
Qed.

Lemma taps_accumulate_witness :
  keyedByUID Examples.healthyStore ∧
  ∃ c', Tap.cards (tapMany Examples.healthyStore [10; 20; 30] "test0001")
          !! JS.toUpperCase "test0001" = Some c' ∧
        Tap.tapCount c' = Tap.tapCount Examples.testCard + 3.
Proof.
  assert (Hk : keyedByUID Examples.healthyStore).
  { intros k c. unfold Examples.healthyStore. simpl.
    rewrite lookup_singleton. case_decide; [|done]. by intros [= <-]. }
  split; [exact Hk|].
  destruct (taps_accumulate Examples.healthyStore [10; 20; 30] "test0001"
              Examples.testCard Hk eq_refl eq_refl eq_refl ltac:(discriminate))
    as [(c' & Hc' & Hn & _) _].
  exists c'. split; [exact Hc'|exact Hn].
Defined.

End TapFacts.

(** ** The life of a card *)

Section CardFacts.

Import CardModel TapMore.

Lemma charAt_characters i :
  0 ≤ i < 36 →
  ∃ c, charAt characters i = String c EmptyString ∧ isCodeChar c = true.
Proof.
  intros Hi.
  assert (Hall : forallb (λ k, match charAt characters (Z.of_nat k) with
                               | String c EmptyString => isCodeChar c
                               | _ => false
                               end) (seq 0 36) = true) by (vm_compute; reflexivity).
  rewrite forallb_forall in Hall.
  assert (Hin : In (Z.to_nat i) (seq 0 36)) by (apply in_seq; lia).
  specialize (Hall _ Hin). rewrite Z2Nat.id in Hall by lia.
  destruct (charAt characters i) as [|c [|? ?]]; try discriminate. eauto.
Qed.

Lemma list_ascii_append a b :
  list_ascii_of_string (a +:+ b) = list_ascii_of_string a ++ list_ascii_of_string b.
Proof.
  induction a as [|c a IH]; [done|]. rewrite append_cons. simpl. by rewrite IH.
Qed.

Lemma generateLoop_spec host n k result :
  inRange host →
  let '(code, k') := generateLoop host n k result in
  String.length code = (String.length result + n)%nat ∧
  k' = (k + n)%nat ∧
  (forallb isCodeChar (list_ascii_of_string result) = true →
   forallb isCodeChar (list_ascii_of_string code) = true).
Proof.
  intros Hr. revert k result. induction n as [|n IH]; intros k result; simpl.
  - repeat split; [lia|lia|done].
  - specialize (IH (S k) (result +:+ charAt characters (randomIndex host k))).
    destruct (generateLoop host n (S k) _) as [code k'].
    destruct IH as (Hlen & Hk & Hall).
    destruct (charAt_characters _ (Hr k)) as (c & Hc & Hcc).
    rewrite Hc in *. rewrite length_append in Hlen. simpl in Hlen.
    repeat split; [lia|lia|].
    intros Hres. apply Hall. rewrite list_ascii_append, forallb_app, Hres.
    simpl. by rewrite Hcc.
Qed.

Lemma generateActivationCode_spec (host : Host) (k : nat) :
  inRange host →
  String.length (fst (generateActivationCode host k)) = 8%nat ∧
  matchesCodePattern (fst (generateActivationCode host k)) = true ∧
  snd (generateActivationCode host k) = (k + 8)%nat.
Proof.
  intros Hr. unfold generateActivationCode.
  pose proof (generateLoop_spec host 8 k EmptyString Hr) as Hspec.
  destruct (generateLoop host 8 k EmptyString) as [code k'].
  destruct Hspec as (Hlen & Hk & Hall). simpl in *.
  unfold matchesCodePattern. rewrite Hlen, Hall by done. done.
Qed.

(** X16: when every random value is an index into the 36 characters, the
    generated activation code has eight characters, each an upper-case
    letter or a digit, so it fits the pattern the schema sets for
    [activationCode]; eight random values are used. *)
Theorem generated_code_fits_the_schema (host : Host) (k : nat) :
  inRange host →
  String.length (fst (generateActivationCode host k)) = 8%nat ∧
  matchesCodePattern (fst (generateActivationCode host k)) = true ∧
  snd (generateActivationCode host k) = (k + 8)%nat.
Proof.
  intros Hr. destruct (generateActivationCode_spec host k Hr) as (Hlen & Hpat & Hk).
  split; [exact Hlen|]. split; [exact Hpat|exact Hk].
Qed.

Lemma generated_code_fits_the_schema_witness :
  inRange CardExamples.host0 ∧
  matchesCodePattern (fst (generateActivationCode CardExamples.host0 0)) = true.
Proof.
  assert (Hr : inRange CardExamples.host0).
  { intros j. unfold CardExamples.host0. simpl. apply Z.mod_pos_bound. lia. }
  split; [exact Hr|].
  exact (proj1 (proj2 (generated_code_fits_the_schema CardExamples.host0 0 Hr))).
Defined.

Lemma findByActivationCode_Some cards code c :
  findByActivationCode cards code = Some c →
  activationCode c = Some (JS.toUpperCase code) ∧ status c = "ready" ∧ isActivated c = false.
Proof.
  intros Hf. apply find_some in Hf as [_ Hp].
  apply andb_true_iff in Hp as [Hp Hact]. apply andb_true_iff in Hp as [Hcode Hst].
  apply String.eqb_eq in Hst. apply negb_true_iff in Hact, Hcode.
  repeat split; try done.
  unfold JS.strict_ne in Hcode. destruct (activationCode c) as [s|]; [|done].
  apply negb_false_iff, String.eqb_eq in Hcode. by subst.
Qed.

(** X17: activating a card marks it activated with the user as owner and
    the time of activation, removes its activation code and uses no random
    value; afterwards the card cannot be activated again and no activation
    code finds it. *)
Theorem activate_consumes_the_code (host : Host) (k : nat) (d : Doc) (userId : string) :
  let c' := fields (fst (activate host k d userId)) in
  isActivated c' = true ∧ status c' = "activated" ∧ owner c' = Some userId ∧
  activatedAt c' = Some (now host) ∧ activationCode c' = None ∧
  canBeActivated c' = false ∧
  tapCount c' = tapCount (fields d) ∧
  snd (activate host k d userId) = k ∧
  (∀ cards code, findByActivationCode cards code ≠ Some c').
Proof.
  intros c'. subst c'. unfold activate, save, preSave, withFields. simpl.
  rewrite andb_false_r. simpl.
  destruct (isModified _ "tapCount"); simpl; repeat split; try done;
    intros cards code Hf; apply findByActivationCode_Some in Hf as (_ & _ & Hf);
    done.
Qed.

(** X18: deactivating a card only sets its status to suspended: the flag
    [isActivated], which is all the tap route tests, stays as it was, so a
    tap on a suspended card that had been activated is answered with the
    success reply and counted. *)
Theorem suspended_card_is_still_served (host : Host) (k : nat) (d : Doc)
    (users : gmap string Tap.Owner) :
  let c' := fields (fst (deactivate host k d)) in
  status c' = "suspended" ∧
  isActivated c' = isActivated (fields d) ∧
  populated users c' = populated users (fields d) ∧
  (isActivated (fields d) = true →
   ∀ st t uid,
     Tap.cards st !! JS.toUpperCase uid = Some (populated users c') →
     Tap.saveError st = None →
     ∃ st' body, Tap.handler st t uid = (st', Tap.Json body) ∧
                 Tap.info_tapCount (Tap.card body) = tapCount (fields d) + 1).
Proof.
  intros c'. subst c'. unfold deactivate, save, preSave, withFields. simpl.
  rewrite andb_false_r. simpl.
  assert (Hserve : ∀ c0 : Card, isActivated c0 = true → tapCount c0 = tapCount (fields d) →
    ∀ st t uid, Tap.cards st !! JS.toUpperCase uid = Some (populated users c0) →
      Tap.saveError st = None →
      ∃ st' body, Tap.handler st t uid = (st', Tap.Json body) ∧
                  Tap.info_tapCount (Tap.card body) = tapCount (fields d) + 1).
  { intros c0 Ha Hn st t uid Hc Hs.
    destruct (handler_reply st t uid _ Hc Ha Hs) as (st' & body & Hh & _ & Hcount & _).
    exists st', body. split; [done|]. simpl in Hcount. congruence. }
  destruct (isModified _ "tapCount"); simpl; repeat split; try done;
    intros Ha; by apply Hserve.
Qed.

Lemma toUpperCase_code s :
  forallb isCodeChar (list_ascii_of_string s) = true → JS.toUpperCase s = s.
Proof.
  unfold JS.toUpperCase. induction s as [|c s IH]; simpl; [done|].
  rewrite andb_true_iff. intros [Hc Hs]. rewrite IH by done. f_equal.
  clear -Hc. destruct c as [[] [] [] [] [] [] [] []]; try reflexivity; discriminate.
Qed.

Lemma reset_fields host k d :
  inRange host →
  fields (fst (reset host k d))
  = {| cardUID := cardUID (fields d); owner := None; status := "ready";
       isActivated := false;
       activationCode := Some (fst (generateActivationCode host k));
       activatedAt := None; nickname := None; description := None;
       tapCount := 0; lastTapped := None; profile := None;
       analytics := {| totalTaps := 0; uniqueVisitors := 0;
                       lastAnalyticsUpdate := Some (now host) |} |} ∧
  snd (reset host k d) = snd (generateActivationCode host k).
Proof.
  intros Hr. unfold reset.
  destruct (generateActivationCode_spec host k Hr) as (Hlen & _ & _).
  destruct (generateActivationCode host k) as [code k1]. simpl in Hlen.
  assert (Hne : JS.truthy (Some code) = true) by (by destruct code).
  unfold save, preSave, withFields. cbn [fields status activationCode].
  rewrite Hne, andb_false_r.
  destruct (isModified _ "tapCount"); done.
Qed.

(** X19: resetting a card, with random values in range, returns it to the
    ready state: no owner, profile or nickname, no taps, not activated, and
    a fresh activation code that fits the schema's pattern; the card can be
    activated again and is found by that code, in either case of letters. *)
Theorem reset_returns_card_to_ready (host : Host) (k : nat) (d : Doc) :
  inRange host →
  let c' := fields (fst (reset host k d)) in
  canBeActivated c' = true ∧
  status c' = "ready" ∧ isActivated c' = false ∧
  owner c' = None ∧ profile c' = None ∧ nickname c' = None ∧
  tapCount c' = 0 ∧ lastTapped c' = None ∧
  totalTaps (analytics c') = 0 ∧ uniqueVisitors (analytics c') = 0 ∧
  (∃ code, activationCode c' = Some code ∧ matchesCodePattern code = true ∧
           findByActivationCode [c'] code = Some c' ∧
           findByActivationCode [c'] (JS.toLowerCase code) = Some c') ∧
  snd (reset host k d) = (k + 8)%nat.
Proof.
  intros Hr c'. subst c'.
  destruct (reset_fields host k d Hr) as [-> ->].
  destruct (generateActivationCode_spec host k Hr) as (Hlen & Hpat & Hk).
  set (code := fst (generateActivationCode host k)) in *.
  assert (Hne : JS.truthy (Some code) = true) by (by destruct code).
  assert (Hup : JS.toUpperCase code = code).
  { apply toUpperCase_code. unfold matchesCodePattern in Hpat.
    by apply andb_true_iff in Hpat as [_ ?]. }
  split; [unfold canBeActivated; cbn [status isActivated activationCode]; by rewrite Hne|].
  do 9 (split; [reflexivity|]). split; [|exact Hk].
  exists code. split; [reflexivity|]. split; [exact Hpat|].
  unfold findByActivationCode. cbn [List.find activationCode status isActivated].
  rewrite toUpperCase_toLowerCase, Hup. cbn [JS.strict_ne].
  rewrite String.eqb_refl. done.
Qed.

Lemma reset_returns_card_to_ready_witness :
  inRange CardExamples.host0 ∧
  canBeActivated (fields (fst (reset CardExamples.host0 0 CardExamples.activeDoc))) = true.
Proof.
  assert (Hr : inRange CardExamples.host0).
  { intros j. unfold CardExamples.host0. simpl. apply Z.mod_pos_bound. lia. }
  split; [exact Hr|].
  exact (proj1 (reset_returns_card_to_ready CardExamples.host0 0 CardExamples.activeDoc Hr)).
Defined.

(** X20: the copy of the tap count in the analytics follows the count:
    recording a tap adds one to [tapCount], stamps [lastTapped], and the
    pre-save middleware sets [analytics.totalTaps] to the new count (the card
    the tap route then sees is the one its own model of [recordTap]
    stores); activation and deactivation keep the two equal, and a reset
    makes both zero. *)
Theorem tap_counter_stays_in_step (host : Host) (k : nat) (d : Doc) :
  (let c' := fields (fst (recordTap host k d)) in
   tapsInStep c' ∧ tapCount c' = tapCount (fields d) + 1 ∧
   lastTapped c' = Some (now host) ∧
   isActivated c' = isActivated (fields d) ∧
   ∀ users, populated users c' = tapped (populated users (fields d)) 1 (now host)) ∧
  (∀ userId, tapsInStep (fields d) →
     tapsInStep (fields (fst (activate host k d userId)))) ∧
  (tapsInStep (fields d) → tapsInStep (fields (fst (deactivate host k d)))) ∧
  (inRange host → tapsInStep (fields (fst (reset host k d)))).
Proof.
  split; [|split; [|split]].
  - unfold recordTap, save, preSave.
    match goal with |- context [if ?b then _ else (?d1, k)] =>
      destruct b; [destruct (generateActivationCode host k) as [code k']|] end;
      unfold withFields; cbn [fields modified fst];
      unfold isModified; cbn [modified setTapCount];
      (replace (tapCount (fields d) =? tapCount (fields d) + 1) with false
         by (symmetry; apply Z.eqb_neq; lia));
      (rewrite bool_decide_eq_true_2 by set_solver);
      repeat split.
  - intros userId Hstep. unfold activate, save, preSave, withFields. simpl.
    rewrite andb_false_r. simpl. by destruct (isModified _ "tapCount").
  - intros Hstep. unfold deactivate, save, preSave, withFields. simpl.
    rewrite andb_false_r. simpl. by destruct (isModified _ "tapCount").
  - intros Hr. by destruct (reset_fields host k d Hr) as [-> _].
Qed.

Lemma ceilDiv_le a b n : 0 < b → ceilDiv a b ≤ n ↔ a ≤ n * b.
Proof.
  intros Hb. unfold ceilDiv.
  pose proof (Z.div_mod (- a) b ltac:(lia)).
  pose proof (Z.mod_pos_bound (- a) b Hb). split; intros; nia.
Qed.

(** X21: the virtual [activityStatus] in milliseconds: never-used exactly
    when the card was never tapped; otherwise active up to one day after the
    last tap (and for a last tap in the future), recent up to seven days,
    moderate up to thirty days, inactive beyond, each bound included. *)
Theorem activity_status_thresholds (host : Host) (c : Card) :
  (activityStatus host c = "never-used" ↔ lastTapped c = None) ∧
  (∀ last, lastTapped c = Some last →
     let age := now host - last in
     (activityStatus host c = "active" ↔ age ≤ 86400000) ∧
     (activityStatus host c = "recent" ↔ 86400000 < age ≤ 604800000) ∧
     (activityStatus host c = "moderate" ↔ 604800000 < age ≤ 2592000000) ∧
     (activityStatus host c = "inactive" ↔ 2592000000 < age)).
Proof.
  unfold activityStatus. split.
  - destruct (lastTapped c) as [last|]; [|done].
    split; [|done]. repeat case_match; done.
  - intros last ->. simpl.
    pose proof (ceilDiv_le (now host - last) 86400000 1 ltac:(lia)).
    pose proof (ceilDiv_le (now host - last) 86400000 7 ltac:(lia)).
    pose proof (ceilDiv_le (now host - last) 86400000 30 ltac:(lia)).
    change (1000 * 60 * 60 * 24) with 86400000.
    repeat match goal with
    | |- context [?a <=? ?b] => destruct (Z.leb_spec a b)
    end; repeat split; try done; try lia.
Qed.

End CardFacts.

(** ** Activities *)

Section ActivityFacts.

Import ActivityModel.

Lemma typeScore_range t : 20 ≤ typeScore t ≤ 90.
Proof.
  unfold typeScore.
  repeat match goal with |- context [if ?b then _ else _] => destruct b end; lia.
Qed.

(** X22: for an activity that has its [createdAt], the importance score is
    computed without error and lies between 20 and 100, so the lower clamp
    at 0 never acts; only the score changes; the previous score plays no
    part, so computing it again gives the same; and a milestone younger
    than six hours scores 100. *)
Theorem importance_score_bounds (host : Host) (this : Activity) (created : Z) :
  createdAt this = Some created →
  ∃ this',
    calculateImportanceScore host this = JS.Normal this' ∧
    20 ≤ importanceScore this' ≤ 100 ∧
    this' = setImportanceScore this (importanceScore this') ∧
    calculateImportanceScore host this' = JS.Normal this' ∧
    (type this = "milestone_reached" → now host - created < 21600000 →
     importanceScore this' = 100).
Proof.
  intros Hc. unfold calculateImportanceScore. rewrite Hc.
  eexists. split; [reflexivity|].
  pose proof (typeScore_range (type this)) as Ht.
  cbn [importanceScore setImportanceScore createdAt type tapData_converted
       interviewData_outcome milestoneData_threshold]. rewrite Hc.
  repeat split; try reflexivity.
  - repeat match goal with
           | |- context [if ?b then _ else _] => destruct b
           | |- context [match ?o with Some _ => _ | None => _ end] => destruct o
           end; lia.
  - repeat match goal with
           | |- context [if ?b then _ else _] => destruct b
           | |- context [match ?o with Some _ => _ | None => _ end] => destruct o
           end; lia.
  - intros Hty Hage. unfold typeScore. rewrite Hty. simpl String.eqb. cbv iota.
    repeat match goal with
           | |- context [?a <? ?b] => destruct (Z.ltb_spec a b)
           | |- context [if ?b then _ else _] => destruct b
           | |- context [match ?o with Some _ => _ | None => _ end] => destruct o
           end; lia.
Qed.

Lemma importance_score_bounds_witness :
  createdAt ActivityExamples.tapActivity = Some 4000000 ∧
  ∃ this',
    calculateImportanceScore ActivityExamples.host0 ActivityExamples.tapActivity
    = JS.Normal this' ∧ 20 ≤ importanceScore this' ≤ 100.
Proof.
  split; [reflexivity|].
  destruct (importance_score_bounds ActivityExamples.host0 ActivityExamples.tapActivity
              4000000 eq_refl) as (this' & Hcalc & Hb & _).
  exists this'. split; [exact Hcalc|exact Hb].
Defined.

(** X23: the importance score never grows with age: computed at a later
    time for the same activity, it is at most what it was. *)
Theorem importance_score_fades_with_age (host : Host) (this : Activity)
    (t t' : Z) (a a' : Activity) :
  t ≤ t' →
  calculateImportanceScore (withNow host t) this = JS.Normal a →
  calculateImportanceScore (withNow host t') this = JS.Normal a' →
  importanceScore a' ≤ importanceScore a.
Proof.
  intros Hle. unfold calculateImportanceScore.
  destruct (createdAt this) as [created|]; [|done].
  intros [= <-] [= <-]. cbn [importanceScore setImportanceScore now withNow].
  repeat match goal with
         | |- context [?a <? ?b] => destruct (Z.ltb_spec a b)
         end; try lia;
  repeat match goal with
         | |- context [if ?b then _ else _] => destruct b
         | |- context [match ?o with Some _ => _ | None => _ end] => destruct o
         end; lia.
Qed.

Lemma importance_score_fades_with_age_witness :
  ∃ a a',
    calculateImportanceScore (withNow ActivityExamples.host0 5000000)
      ActivityExamples.tapActivity = JS.Normal a ∧
    calculateImportanceScore (withNow ActivityExamples.host0 500000000)
      ActivityExamples.tapActivity = JS.Normal a' ∧
    importanceScore a' ≤ importanceScore a.
Proof.
  eexists _, _. split; [reflexivity|]. split; [reflexivity|].
  apply (importance_score_fades_with_age ActivityExamples.host0
           ActivityExamples.tapActivity 5000000 500000000); [lia|reflexivity|reflexivity].
Defined.

(** An activity that has no [createdAt] yet makes both the score and the
    virtual [timeAgo] throw. *)
Theorem unsaved_activity_throws (host : Host) (this : Activity) :
  createdAt this = None →
  (∃ e, calculateImportanceScore host this = JS.Throw e) ∧
  (∃ e, timeAgo host this = JS.Throw e).
Proof.
  intros Hc. unfold calculateImportanceScore, timeAgo. rewrite Hc. eauto.
Qed.

(** X24: the virtual [timeAgo] in milliseconds of age: just now below one
    minute (and for a creation time in the future), then whole minutes from
    1 to 59, whole hours from 1 to 23, whole days from 1 to 6, and from
    seven days on the date in the host's locale. *)
Theorem time_ago_labels (host : Host) (this : Activity) (created : Z) :
  createdAt this = Some created →
  let age := now host - created in
  (age < 60000 → timeAgo host this = JS.Normal "just now") ∧
  (60000 ≤ age < 3600000 →
   timeAgo host this = JS.Normal (JS.toString (age / 60000) +:+ "m ago") ∧
   1 ≤ age / 60000 ≤ 59) ∧
  (3600000 ≤ age < 86400000 →
   timeAgo host this = JS.Normal (JS.toString (age / 3600000) +:+ "h ago") ∧
   1 ≤ age / 3600000 ≤ 23) ∧
  (86400000 ≤ age < 604800000 →
   timeAgo host this = JS.Normal (JS.toString (age / 86400000) +:+ "d ago") ∧
   1 ≤ age / 86400000 ≤ 6) ∧
  (604800000 ≤ age →
   timeAgo host this = JS.Normal (toLocaleDateString host created)).
Proof.
  intros Hc age. unfold timeAgo. rewrite Hc. fold age.
  assert (Hm : age / 1000 / 60 = age / 60000) by (rewrite Z.div_div by lia; done).
  assert (Hh : age / 1000 / 60 / 60 = age / 3600000)
    by (rewrite Hm, Z.div_div by lia; done).
  assert (Hd : age / 1000 / 60 / 60 / 24 = age / 86400000)
    by (rewrite Hh, Z.div_div by lia; done).
  rewrite Hd, Hh, Hm.
  assert (Hdiv : ∀ b n, 0 < b → (age / b < n ↔ age < n * b)).
  { intros b n Hb. pose proof (Z.div_mod age b ltac:(lia)).
    pose proof (Z.mod_pos_bound age b Hb). split; intros; nia. }
  pose proof (Hdiv 1000 60 ltac:(lia)) as H1.
  pose proof (Hdiv 60000 60 ltac:(lia)) as H2.
  pose proof (Hdiv 3600000 24 ltac:(lia)) as H3.
  pose proof (Hdiv 86400000 7 ltac:(lia)) as H4.
  pose proof (Hdiv 60000 1 ltac:(lia)) as H5.
  pose proof (Hdiv 3600000 1 ltac:(lia)) as H6.
  pose proof (Hdiv 86400000 1 ltac:(lia)) as H7.
  destruct (Z.ltb_spec (age / 1000) 60), (Z.ltb_spec (age / 60000) 60),
    (Z.ltb_spec (age / 3600000) 24), (Z.ltb_spec (age / 86400000) 7);
    repeat split; intros; try reflexivity; try lia.
Qed.

Lemma time_ago_labels_witness :
  createdAt ActivityExamples.tapActivity = Some 4000000 ∧
  timeAgo ActivityExamples.host0 ActivityExamples.tapActivity = JS.Normal "1h ago".
Proof.
  split; [reflexivity|].
  exact (proj1 (proj1 (proj2 (proj2 (time_ago_labels ActivityExamples.host0
           ActivityExamples.tapActivity 4000000 eq_refl))) ltac:(simpl; lia))).
Defined.

Lemma join_nonempty sep parts :
  parts ≠ [] → Forall (λ s, s ≠ EmptyString) parts → JSArray.join sep parts ≠ EmptyString.
Proof.
  intros Hne Hall. destruct parts as [|x rest]; [done|].
  apply Forall_cons in Hall as [Hx _].
  destruct rest; simpl; [done|]. destruct x; [done|]. by rewrite append_cons.
Qed.

Lemma truthyParts_nonempty l : Forall (λ s, s ≠ EmptyString) (truthyParts l).
Proof.
  unfold truthyParts. induction l as [|o l IH]; simpl; [constructor|].
  destruct o as [[|c s]|]; simpl; try done. constructor; done.
Qed.

(** X25: the virtual [formattedLocation] is never the empty string; it is
    Unknown location when no part of the location is set, and otherwise the
    set parts in the order city, region, country, joined by a comma and a
    space. *)
Theorem formatted_location_is_never_empty (this : Activity) :
  formattedLocation this ≠ EmptyString ∧
  (∀ loc, metadata_location this = Some loc →
     JS.truthy (city loc) = false → JS.truthy (region loc) = false →
     JS.truthy (country loc) = false →
     formattedLocation this = "Unknown location") ∧
  (∀ ci r co,
     metadata_location this
     = Some {| country := Some co; region := Some r; city := Some ci |} →
     ci ≠ EmptyString → r ≠ EmptyString → co ≠ EmptyString →
     formattedLocation this = ci +:+ ", " +:+ r +:+ ", " +:+ co) ∧
  (∀ ci co,
     metadata_location this
     = Some {| country := Some co; region := None; city := Some ci |} →
     ci ≠ EmptyString → co ≠ EmptyString →
     formattedLocation this = ci +:+ ", " +:+ co).
Proof.
  unfold formattedLocation. split; [|split; [|split]].
  - destruct (metadata_location this) as [loc|]; [|done].
    destruct (truthyParts _) as [|x rest] eqn:Hp; [done|].
    replace (0 <? Z.of_nat (length (x :: rest))) with true
      by (symmetry; apply Z.ltb_lt; simpl; lia).
    apply join_nonempty; [done|]. rewrite <- Hp. apply truthyParts_nonempty.
  - intros loc -> Hci Hr Hco. unfold truthyParts. simpl. by rewrite Hci, Hr, Hco.
  - intros ci r co -> Hci Hr Hco. unfold truthyParts. simpl.
    destruct ci, r, co; done.
  - intros ci co -> Hci Hco. unfold truthyParts. simpl.
    destruct ci, co; done.
Qed.

End ActivityFacts.

(** ** The error middleware *)

Section ErrorFacts.

Import ErrorHandler.

Lemma duplicateKey_message err w :
  duplicateKey err = JS.Normal w →
  JS.truthy (w_message w) = true ∧ w_statusCode w = Some 400 ∧ w_stripeError w = false
  ∧ w_details w = None.
Proof.
  unfold duplicateKey. destruct (keyValue err) as [kv|]; [|done].
  intros [= <-]. simpl. repeat split.
  repeat match goal with |- context [if ?b then _ else _] => destruct b end;
    try reflexivity.
  destruct (fst <$> head kv) as [[|c f]|]; reflexivity.
Qed.

(** X26: whenever the error middleware answers, the body says
    [success: false] with an error text that is not empty, the status is
    not 0, the statuses 401, 403 and 402 carry the types
    authentication_error, authorization_error and subscription_error, and
    outside development neither the stack nor the details are sent. *)
Theorem error_response_is_a_failure (nodeEnv : option string) (err : Err)
    (status : Z) (resp : Response) :
  errorHandler nodeEnv err = JS.Normal (status, resp) →
  success resp = false ∧ error resp ≠ EmptyString ∧ status ≠ 0 ∧
  (status = 401 → r_type resp = Some "authentication_error") ∧
  (status = 403 → r_type resp = Some "authorization_error") ∧
  (status = 402 → r_type resp = Some "subscription_error") ∧
  (nodeEnv ≠ Some "development" → r_stack resp = None ∧ r_details resp = None).
Proof.
  unfold errorHandler.
  match goal with |- context [JS.bind ?c _] =>
    destruct c as [error2|] eqn:H2; [|done] end. cbn [JS.bind].
  match goal with |- context [JS.bind ?c _] =>
    destruct c as [error3|] eqn:H3; [|done] end. cbn [JS.bind].
  intros [= <- <-]. cbn [success error r_type r_stack r_details].
  split; [done|]. split.
  { match goal with |- context [JS.truthy ?m] => destruct m as [[|c s]|] eqn:? end;
      simpl; done. }
  split.
  { match goal with |- context [w_statusCode ?w] => destruct (w_statusCode w) as [s|] end;
      [destruct (Z.eqb_spec s 0)|]; lia. }
  set (st := match w_statusCode _ with Some s => _ | None => 500 end).
  split; [intros ->; reflexivity|]. split.
  { intros Hst. rewrite Hst. simpl. reflexivity. }
  split.
  { intros Hst. rewrite Hst. reflexivity. }
  intros Hdev.
  assert (JS.strict_ne nodeEnv (Some "development") = true) as ->.
  { destruct nodeEnv as [e|]; [|done]. simpl. apply negb_true_iff, String.eqb_neq.
    congruence. }
  done.
Qed.

Lemma error_response_is_a_failure_witness :
  ∃ resp,
    errorHandler (Some "production") ErrorExamples.declinedCard = JS.Normal (402, resp) ∧
    success resp = false ∧ r_stack resp = None.
Proof.
  eexists. split; [reflexivity|].
  destruct (error_response_is_a_failure (Some "production") ErrorExamples.declinedCard
              402 _ eq_refl) as (Hok & _ & _ & _ & _ & _ & Hdev).
  split; [exact Hok|]. apply Hdev. discriminate.
Defined.

(** X27: the middleware itself throws in exactly two cases: a duplicate-key
    error (code 11000) that carries no [keyValue], and a ValidationError
    that carries no [errors]; on every other error it answers. *)
Theorem error_handler_throws_on_missing_parts (nodeEnv : option string) (err : Err) :
  (∃ e, errorHandler nodeEnv err = JS.Throw e)
  ↔ (codeIs err (CodeNumber 11000) = true ∧ keyValue err = None) ∨
    (nameIs err "ValidationError" = true ∧ errors err = None).
Proof.
  unfold errorHandler, duplicateKey, validationError.
  destruct (codeIs err (CodeNumber 11000)) eqn:Hc,
    (nameIs err "ValidationError") eqn:Hn,
    (keyValue err) as [kv|] eqn:Hk, (errors err) as [ms|] eqn:He; cbn [JS.bind];
    split;
    try (intros [e He']; discriminate He');
    try (intros [[? ?]|[? ?]]; discriminate);
    try (intros _; eauto);
    try (intros _; left; done); try (intros _; right; done).
Qed.

(** X28: an error whose [statusCode] is 429 is answered 429 with the
    too-many-requests text whatever its name, code or type say, since that
    test comes last; no details or fields are sent. *)
Theorem rate_limit_overrides_every_branch (nodeEnv : option string) (err : Err)
    (status : Z) (resp : Response) :
  statusCode err = Some 429 →
  errorHandler nodeEnv err = JS.Normal (status, resp) →
  status = 429 ∧ error resp = "Too many requests, please try again later" ∧
  r_details resp = None ∧ r_fields resp = None ∧
  r_type resp = if nameIs err "ValidationError" then Some "validation_error" else None.
Proof.
  intros Hs. unfold errorHandler. rewrite Hs.
  match goal with |- context [JS.bind ?c _] =>
    destruct c as [error2|] eqn:H2; [|done] end. cbn [JS.bind].
  match goal with |- context [JS.bind ?c _] =>
    destruct c as [error3|] eqn:H3; [|done] end. cbn [JS.bind].
  intros [= <- <-]. simpl.
  destruct (nameIs err "ValidationError"), (JS.strict_ne nodeEnv _); done.
Qed.

Lemma rate_limit_overrides_every_branch_witness :
  statusCode ErrorExamples.throttledToken = Some 429 ∧
  ∃ resp,
    errorHandler None ErrorExamples.throttledToken = JS.Normal (429, resp) ∧
    error resp = "Too many requests, please try again later".
Proof.
  split; [reflexivity|].
  eexists. split; [reflexivity|].
  exact (proj1 (proj2 (rate_limit_overrides_every_branch None ErrorExamples.throttledToken 429 _
                         eq_refl eq_refl))).
Defined.

(** X29: a StripeCardError (not rate-limited) is answered 402 with the type
    subscription_error: the type payment_error that its branch prepares is
    overwritten by the test of the status 402. *)
Theorem declined_card_is_typed_subscription_error (nodeEnv : option string)
    (err : Err) (status : Z) (resp : Response) :
  type err = Some "StripeCardError" →
  statusCode err ≠ Some 429 →
  errorHandler nodeEnv err = JS.Normal (status, resp) →
  status = 402 ∧ error resp = "Your card was declined" ∧
  r_type resp = Some "subscription_error".
Proof.
  intros Ht Hs. unfold errorHandler, typeIs. rewrite Ht.
  match goal with |- context [JS.bind ?c _] =>
    destruct c as [error2|] eqn:H2; [|done] end. cbn [JS.bind].
  match goal with |- context [JS.bind ?c _] =>
    destruct c as [error3|] eqn:H3; [|done] end. cbn [JS.bind].
  simpl negb. cbv iota.
  destruct (statusCode err) as [s|] eqn:Hsc.
  - destruct (Z.eqb_spec s 429) as [->|_]; [done|].
    intros [= <- <-]. done.
  - intros [= <- <-]. done.
Qed.

Lemma declined_card_is_typed_subscription_error_witness :
  type ErrorExamples.declinedCard = Some "StripeCardError" ∧
  statusCode ErrorExamples.declinedCard ≠ Some 429 ∧
  ∃ resp, errorHandler (Some "production") ErrorExamples.declinedCard = JS.Normal (402, resp) ∧
          r_type resp = Some "subscription_error".
Proof.
  assert (Hs : statusCode ErrorExamples.declinedCard ≠ Some 429) by discriminate.
  split; [reflexivity|]. split; [exact Hs|].
  eexists. split; [reflexivity|].
  exact (proj2 (proj2 (declined_card_is_typed_subscription_error (Some "production")
                         ErrorExamples.declinedCard 402 _ eq_refl Hs eq_refl))).
Defined.

(** X30: a tap whose recording is rejected with a plain error ends in
    [next(error)], and the error middleware answers that error with status
    500, [success: false] and the error's message, or Server Error when
    the message is empty, with no type. *)
Theorem failed_tap_is_answered_500 (nodeEnv : option string) (st : Tap.Store)
    (t : Z) (uid : string) (c : Tap.Card) (e : string) :
  Tap.cards st !! JS.toUpperCase uid = Some c →
  Tap.isActivated c = true →
  Tap.saveError st = Some e →
  Tap.handler st t uid = (st, Tap.Next e) ∧
  ∃ resp,
    errorHandler nodeEnv (plainError e) = JS.Normal (500, resp) ∧
    success resp = false ∧
    error resp = (if String.eqb e EmptyString then "Server Error" else e) ∧
    r_type resp = None ∧ r_fields resp = None.
Proof.
  intros Hc Ha Hs. split; [by eapply handler_save_fails|].
  unfold errorHandler, plainError. simpl. eexists. split; [reflexivity|].
  simpl. repeat split. by destruct e.
Qed.

Lemma failed_tap_is_answered_500_witness :
  Tap.cards Examples.failingStore !! JS.toUpperCase "test0001" = Some Examples.testCard ∧
  Tap.isActivated Examples.testCard = true ∧
  Tap.saveError Examples.failingStore = Some "MongoNetworkError" ∧
  ∃ resp,
    errorHandler (Some "production") (plainError "MongoNetworkError")
    = JS.Normal (500, resp) ∧ error resp = "MongoNetworkError".
Proof.
  split; [reflexivity|]. split; [reflexivity|]. split; [reflexivity|].
  destruct (proj2 (failed_tap_is_answered_500 (Some "production") Examples.failingStore
                     5 "test0001" Examples.testCard "MongoNetworkError"
                     eq_refl eq_refl eq_refl))
    as (resp & Hr & _ & He & _).
  exists resp. split; [exact Hr|exact He].
Defined.

End ErrorFacts.
